(** * tools/generate_names.py: the generator of simfin/names.py

    A shallow embedding of the script that turns the list of column
    definitions (name, shortcuts, description) downloaded from the
    SimFin server into the text of the module [names.py], together with
    the properties of its grouping, duplicate detection and rendering.

    Python strings are [string]s; a character is read as a code point
    below 256, so that [String.length] is [len] and the order
    [String.le] (lexicographic on character codes) is the order that
    [sorted] uses on [str]. *)

From Stdlib Require Import Ascii String.
From stdpp Require Import gmap strings list sorting pretty.

Local Open Scope string_scope.
Local Open Scope nat_scope.
Local Open Scope list_scope.
Local Open Scope stdpp_scope.

(** ** Python built-ins used by the script *)

Module Py.

(** [str.isspace] on one character (code points below 256). *)
Definition isspace (c : ascii) : bool :=
  let n := nat_of_ascii c in
  (bool_decide (9 ≤ n ≤ 13) || bool_decide (28 ≤ n ≤ 32)
   || bool_decide (n = 133) || bool_decide (n = 160))%nat.

(** [str.lstrip()], [str.rstrip()] and [str.strip()]. *)
Fixpoint lstrip (s : string) : string :=
  match s with
  | String c s' => if isspace c then lstrip s' else s
  | EmptyString => EmptyString
  end.

Fixpoint rstrip (s : string) : string :=
  match s with
  | String c s' =>
      match rstrip s' with
      | EmptyString => if isspace c then EmptyString else String c EmptyString
      | t => String c t
      end
  | EmptyString => EmptyString
  end.

Definition strip (s : string) : string := rstrip (lstrip s).

(** [''.join(l)]. *)
Definition join (l : list string) : string := foldr String.app "" l.

(** [sorted(l)] on a list of [str]. *)
Definition sorted (l : list string) : list string := merge_sort String.le l.

(** The order of tuples whose first component is a [str], as far as
    the first components decide it. The script sorts the items of a
    dictionary, whose keys are pairwise different, so the comparison
    never reaches the second components. *)
Definition item_le {V} (a b : string * V) : Prop := String.le a.1 b.1.

Global Instance item_le_dec {V} : RelDecision (@item_le V) :=
  λ a b, decide (String.le a.1 b.1).

(** [sorted(d.items())]. *)
Definition sorted_items {V} (l : list (string * V)) : list (string * V) :=
  merge_sort item_le l.

(** ['{}'.format(n)] for a natural number. *)
Definition format_nat (n : nat) : string := pretty n.

(** [print(s, end=e, file=f)] on a text file, a file being the text
    written to it so far. *)
Definition print (s e : string) (f : string) : string := f +:+ s +:+ e.

(** The newline that [print] ends a line with. *)
Definition nl : string := String "010" "".

(** The order in which a [set] of strings is iterated is given by the
    hashes of its elements, which differ from one run to the next. All
    that is known of [list(set(l))] is that it lists the elements of
    [l], each once. *)
Class SetOrder := {
  list_of_set : list string → list string;
  list_of_set_perm l : list_of_set l ≡ₚ remove_dups l
}.

(** One such order: that of the first occurrences. *)
Definition first_seen_order : SetOrder :=
  {| list_of_set := remove_dups; list_of_set_perm l := reflexivity _ |}.

(** Another one: that of the last occurrences, reversed. *)
Definition reverse_order : SetOrder :=
  {| list_of_set l := reverse (remove_dups l);
     list_of_set_perm l := reverse_Permutation (remove_dups l) |}.

End Py.

(** ** The data *)

(** What a run can raise: the lookup of a key that a record lacks. *)
Inductive exn := KeyError (key : string).

(** A record of the downloaded list: a JSON object in which each of the
    three keys may be missing. *)
Record record := mk_record {
  r_name : option string;
  r_shortcuts : option (list string);
  r_description : option string
}.

(** The value kept for a name in [data_organized]. *)
Record record_org := RecordOrg {
  shortcuts : list string;
  descriptions : list string
}.

(** The three variables the first loop of [_process] updates. *)
Record organized := Organized {
  data_organized : gmap string record_org;
  all_names : list string;
  all_shortcuts : list string
}.

Definition organized_init : organized := Organized ∅ [] [].

(** One pass through the body of the loop [for record in data]. *)
Definition organize_record (st : organized) (r : record) : exn + organized :=
  match r_name r with
  | None => inl (KeyError "name")
  | Some name =>
      let all_names := all_names st ++ [name] in
      match r_shortcuts r with
      | None => inl (KeyError "shortcuts")
      | Some scs =>
          let all_shortcuts := all_shortcuts st ++ scs in
          let description := default "" (r_description r) in
          let record_org := default (RecordOrg [] []) (data_organized st !! name) in
          let record_org := RecordOrg (shortcuts record_org ++ scs) (descriptions record_org) in
          let record_org :=
            if decide (description ≠ "")
            then RecordOrg (shortcuts record_org) (descriptions record_org ++ [description])
            else record_org in
          inr (Organized (<[name := record_org]> (data_organized st)) all_names all_shortcuts)
      end
  end.

(** The whole loop: it stops at the first record that raises. *)
Fixpoint organize (st : organized) (data : list record) : exn + organized :=
  match data with
  | [] => inr st
  | r :: data =>
      match organize_record st r with
      | inl e => inl e
      | inr st => organize st data
      end
  end.

(** ** textwrap.TextWrapper

    The wrapper of Python's standard library, as the script builds it:
    only [width], [initial_indent] and [subsequent_indent] are given, all
    other options keep their defaults ([break_long_words],
    [drop_whitespace] and [break_on_hyphens] are on, [max_lines] is
    [None]). Lengths are natural numbers; with the script's width of 80
    and indents of two characters no difference below goes under zero. *)

Module TextWrap.

(** [s[:n]] and [s[n:]] for [0 <= n]. *)
Fixpoint str_take (n : nat) (s : string) : string :=
  match n, s with
  | S n, String c s => String c (str_take n s)
  | _, _ => ""
  end.

Fixpoint str_drop (n : nat) (s : string) : string :=
  match n, s with
  | S n, String c s => str_drop n s
  | _, _ => s
  end.

(** [s.rfind('-', 0, stop)]: the last position below [stop] that holds
    a hyphen, [None] standing for the -1 of Python. *)
Fixpoint rfind_hyphen (s : string) (stop : nat) : option nat :=
  match stop, s with
  | S stop, String c s =>
      match rfind_hyphen s stop with
      | Some i => Some (S i)
      | None => if decide (c = "-"%char) then Some 0 else None
      end
  | _, _ => None
  end.

(** [any(c != '-' for c in s)]. *)
Fixpoint any_non_hyphen (s : string) : bool :=
  match s with
  | String c s => if decide (c = "-"%char) then any_non_hyphen s else true
  | EmptyString => false
  end.

Record TextWrapper := {
  width : nat;
  initial_indent : string;
  subsequent_indent : string
}.

(** [_split_chunks]: the text, its whitespace replaced by spaces, is cut
    into chunks by the regular expression [wordsep_re]. The cut is left
    open here: what follows holds for every way of cutting. *)
Class WordSplit := split_chunks : string → list string.

(** The inner loop of [_wrap_chunks]: chunks are moved to the current
    line as long as they fit. The list [chunks] starts with the chunk
    that comes next (the script keeps it reversed and pops from its
    end). *)
Fixpoint fill_line (width : nat) (cur_line : list string) (cur_len : nat)
    (chunks : list string) : list string * nat * list string :=
  match chunks with
  | [] => (cur_line, cur_len, [])
  | c :: rest =>
      let l := String.length c in
      if decide (cur_len + l ≤ width)
      then fill_line width (cur_line ++ [c]) (cur_len + l) rest
      else (cur_line, cur_len, chunks)
  end.

(** [_handle_long_word], called on a first chunk that fits on no line:
    as much of it as fits is put on the current line, cut after the
    last hyphen where there is one with something else before it. *)
Definition handle_long_word (chunk : string) (rest : list string)
    (cur_line : list string) (cur_len width : nat) : list string * list string :=
  let space_left := if decide (width < 1) then 1 else width - cur_len in
  let end_ :=
    if decide (space_left < String.length chunk) then
      match rfind_hyphen chunk space_left with
      | Some hyphen =>
          if bool_decide (0 < hyphen) && any_non_hyphen (str_take hyphen chunk)
          then hyphen + 1 else space_left
      | None => space_left
      end
    else space_left in
  (cur_line ++ [str_take end_ chunk], str_drop end_ chunk :: rest).

(** One pass through the body of the outer loop of [_wrap_chunks]:
    the lines so far and the chunks left, before and after. The value
    of [cur_len] is not read again once the line is complete. *)
Definition wrap_line (w : TextWrapper) (lines chunks : list string)
    : list string * list string :=
  let indent := if lines is [] then initial_indent w else subsequent_indent w in
  let width := width w - String.length indent in
  let chunks :=
    match chunks, lines with
    | c :: rest, _ :: _ => if decide (Py.strip c = "") then rest else chunks
    | _, _ => chunks
    end in
  let '(cur_line, cur_len, chunks) := fill_line width [] 0 chunks in
  let '(cur_line, chunks) :=
    match chunks with
    | c :: rest =>
        if decide (width < String.length c)
        then handle_long_word c rest cur_line cur_len width
        else (cur_line, chunks)
    | [] => (cur_line, chunks)
    end in
  let cur_line :=
    match last cur_line with
    | Some c => if decide (Py.strip c = "") then removelast cur_line else cur_line
    | None => cur_line
    end in
  let lines :=
    if cur_line is [] then lines else lines ++ [indent +:+ Py.join cur_line] in
  (lines, chunks).

(** The outer loop, [while chunks:], run for at most [fuel] passes. *)
Fixpoint wrap_loop (fuel : nat) (w : TextWrapper) (lines chunks : list string)
    : option (list string) :=
  match chunks with
  | [] => Some lines
  | _ :: _ =>
      match fuel with
      | 0 => None
      | S fuel =>
          let '(lines, chunks) := wrap_line w lines chunks in
          wrap_loop fuel w lines chunks
      end
  end.

(** Every pass takes a chunk or a character away, so this many passes
    are enough ([wrap_loop_enough] below). *)
Definition chunks_len (chunks : list string) : nat :=
  sum_list_with String.length chunks.

Definition passes (chunks : list string) : nat :=
  length chunks + chunks_len chunks.

Definition wrap_chunks (w : TextWrapper) (chunks : list string) : list string :=
  default [] (wrap_loop (passes chunks) w [] chunks).

(** [TextWrapper.wrap(text)]. *)
Definition wrap {ws : WordSplit} (w : TextWrapper) (text : string) : list string :=
  wrap_chunks w (split_chunks text).

(** *** The cut of texts without hyphens

    On a text without hyphens [wordsep_re] cuts between the runs of
    whitespace and the runs of other characters, after tabs are
    expanded and every whitespace character is turned into a space. *)

(** [string.whitespace] of the characters that [textwrap] replaces. *)
Definition is_whitespace (c : ascii) : bool := Ascii.is_space c.

(** [str.expandtabs(8)] from column [col] on. *)
Fixpoint expandtabs (col : nat) (s : string) : string :=
  match s with
  | String c s =>
      if decide (c = "009"%char) then
        let n := 8 - col `mod` 8 in
        string_of_list_ascii (replicate n " "%char) +:+ expandtabs 0 s
      else if decide (c = "010"%char ∨ c = "013"%char) then String c (expandtabs 0 s)
      else String c (expandtabs (S col) s)
  | EmptyString => EmptyString
  end.

(** [_munge_whitespace]. *)
Fixpoint translate_whitespace (s : string) : string :=
  match s with
  | String c s => String (if is_whitespace c then " "%char else c) (translate_whitespace s)
  | EmptyString => EmptyString
  end.

Definition munge_whitespace (text : string) : string :=
  translate_whitespace (expandtabs 0 text).

(** The runs of spaces and of other characters; [cur] is the run being
    read, in reverse. *)
Fixpoint runs (cur : string) (s : string) : list string :=
  match s with
  | String c s =>
      match cur with
      | String d _ =>
          if decide (is_whitespace c = is_whitespace d)
          then runs (String c cur) s
          else String.rev cur :: runs (String c "") s
      | EmptyString => runs (String c "") s
      end
  | EmptyString => if decide (cur = "") then [] else [String.rev cur]
  end.

Definition split_plain : WordSplit := λ text, runs "" (munge_whitespace text).

End TextWrap.

(** ** numpy, as far as [_get_duplicates] uses it *)

Module Np.

(** The position of the first occurrence of [v] in [x]. *)
Definition first_index (v : string) (x : list string) : option nat :=
  fst <$> list_find (v =.) x.

(** [np.unique(x, return_index=True)]: the sorted unique values of [x]
    and, for each of them, the position of its first occurrence. *)
Definition unique_index (x : list string) : list string * list nat :=
  let u := Py.sorted (remove_dups x) in
  (u, omap (λ v, first_index v x) u).

(** [np.ones(n, dtype=np.bool)], [np.bool] being the name that numpy
    had for [bool] when the script was written. *)
Definition ones (n : nat) : list bool := replicate n true.

(** [a[idx] = v] for a list of positions [idx]. *)
Definition put (idx : list nat) (v : bool) (a : list bool) : list bool :=
  foldl (λ a i, <[i := v]> a) a idx.

(** [x[mask]] for a boolean [mask] as long as [x]. *)
Fixpoint select {A} (mask : list bool) (x : list A) : list A :=
  match mask, x with
  | b :: mask, a :: x => if b then a :: select mask x else select mask x
  | _, _ => []
  end.

End Np.

(** ** Helper functions of the script *)

(** [_get_duplicates(x)]: "the elements from x that are duplicates". *)
Definition _get_duplicates (x : list string) : list string :=
  let '(_, idx) := Np.unique_index x in
  let duplicate_mask := Np.ones (length x) in
  let duplicate_mask := Np.put idx false duplicate_mask in
  Np.select duplicate_mask x.

(** [_print_duplicates(x)], [err] being the text on stderr so far. *)
Definition _print_duplicates (x : list string) (err : string) : string :=
  let duplicates := _get_duplicates x in
  if decide (0 < length duplicates) then
    let msg := "Duplicates: " +:+ Py.format_nat (length duplicates) in
    let err := Py.print msg Py.nl err in
    let err := foldl (λ err dup, Py.print ("- " +:+ dup) Py.nl err) err duplicates in
    Py.print "" Py.nl err
  else err.

(** ** The constants of the script *)

Definition _output_filename : string := "names.py".

Definition _header : string :=
"##########################################################################
#
# Names that makes it easier to address individual data-columns.
# For example, you can write df[SGA] instead of
# df['Selling, General & Administrative'] to get the same data.
#
# For a better overview of the datasets and their data-columns, see:
# https://simfin.com/data/access/bulk
#
# This file was auto-generated by the script: tools/generate_names.py
#
##########################################################################
# SimFin - Simple financial data for Python.
# www.simfin.com - www.github.com/simfin/simfin
# See README.md for instructions and LICENSE.txt for license details.
##########################################################################

# Import all the extra names that have been manually defined. This makes
# them available for import through this auto-generated module as well.
from simfin.names_extra import *

##########################################################################
".

Definition _separator : string :=
  "##########################################################################".

(** The wrapper that keeps the comment lines within 80 columns. *)
Definition wrapper : TextWrap.TextWrapper :=
  {| TextWrap.width := 80;
     TextWrap.initial_indent := "# ";
     TextWrap.subsequent_indent := "# " |}.

(** ** Writing names.py *)

(** What the script acts on: the file names.py of the current directory
    ([None] when there is none) and the text on stderr. *)
Record world := World {
  names_py : option string;
  stderr : string
}.

(** How a run ends, and the world it leaves. *)
Inductive outcome :=
| Returned (w : world)
| Raised (e : exn) (w : world).

Definition world_of (o : outcome) : world :=
  match o with Returned w | Raised _ w => w end.

Section writing.
Context {so : Py.SetOrder} {ws : TextWrap.WordSplit}.

(** The numbered text of several descriptions: the loop
    [for i, descr in enumerate(descriptions)]. *)
Definition numbered (descriptions : list string) : string :=
  foldl (λ description '(i, descr),
           description +:+ ("(" +:+ Py.format_nat (i + 1) +:+ ") ")
             +:+ Py.strip descr +:+ " ")
        "" (imap pair descriptions).

(** The value of [description] for a name that has descriptions. *)
Definition description_of (descriptions : list string) : string :=
  match descriptions with
  | [d] => d
  | _ => numbered descriptions
  end.

(** The text handed to the wrapper, [description.strip()]. *)
Definition wrapped_text (descriptions : list string) : string :=
  Py.strip (description_of descriptions).

(** The value of [desc_lines], and no lines for a name without
    descriptions. *)
Definition desc_lines (descriptions : list string) : list string :=
  if decide (0 < length descriptions)
  then TextWrap.wrap wrapper (wrapped_text descriptions)
  else [].

(** The body of the loop over the sorted items of [data_organized]. *)
Definition write_item (file : string) (item : string * record_org) : string :=
  let '(name, record_org) := item in
  let file := foldl (λ file line, Py.print line Py.nl file) file
                (desc_lines (descriptions record_org)) in
  let shortcuts := Py.list_of_set (shortcuts record_org) in
  let file := foldl (λ file shortcut, Py.print (shortcut +:+ " = ") "" file) file
                (Py.sorted shortcuts) in
  let file := Py.print ("'" +:+ name +:+ "'") Py.nl file in
  Py.print "" Py.nl file.

(** The body of [with open(_output_filename, mode='wt') as file],
    from the empty file that [open] leaves. The items are sorted before
    they are written, so the order in which the dictionary lists them
    has no part in the result ([sorted_items_perm_eq]). *)
Definition write_names (data_organized : gmap string record_org) : string :=
  let file := Py.print _header Py.nl "" in
  let file := foldl write_item file (Py.sorted_items (map_to_list data_organized)) in
  Py.print _separator Py.nl file.

(** [_process()], on the list [data] that the server answers. *)
Definition _process (data : list record) (w : world) : outcome :=
  match organize organized_init data with
  | inl e => Raised e w
  | inr st =>
      let file := write_names (data_organized st) in
      let err := _print_duplicates (all_names st) (stderr w) in
      let err := _print_duplicates (all_shortcuts st) err in
      Returned (World (Some file) err)
  end.

End writing.

(** ** The vocabulary of the specification *)

(** A record that the first loop accepts. *)
Definition well_formed (r : record) : Prop :=
  is_Some (r_name r) ∧ is_Some (r_shortcuts r).

(** The names of the records, in the order of the input. *)
Definition names_of (data : list record) : list string := omap r_name data.

(** The shortcut lists of the records called [name], concatenated. *)
Definition shortcuts_in (name : string) (data : list record) : list string :=
  r ← data;
  if decide (r_name r = Some name) then default [] (r_shortcuts r) else [].

(** The descriptions of the records called [name] that are not empty, in
    the order of the input. *)
Definition descriptions_in (name : string) (data : list record) : list string :=
  r ← data;
  if decide (r_name r = Some name)
  then (let d := default "" (r_description r) in if decide (d ≠ "") then [d] else [])
  else [].

(** The group that the specification gives a name: nothing for a name
    that no record has. *)
Definition name_group (name : string) (data : list record) : option record_org :=
  if decide (name ∈ names_of data)
  then Some (RecordOrg (shortcuts_in name data) (descriptions_in name data))
  else None.

(** How often [v] occurs in [l]. *)
Definition count (v : string) (l : list string) : nat := length (filter (v =.) l).

(** The text of a sequence of lines, each ended by a newline. *)
Definition unlines (ls : list string) : string := Py.join ((λ l, l +:+ Py.nl) <$> ls).

(** Strictly ascending in the order of the character codes. *)
Definition ascending (l : list string) : Prop := StronglySorted (strict String.le) l.

(** The assignment line of a name for the shortcuts [scs], in the order
    given: each shortcut followed by [" = "], then the quoted name. *)
Definition assignment_line (name : string) (scs : list string) : string :=
  Py.join ((λ s, s +:+ " = ") <$> scs) +:+ "'" +:+ name +:+ "'".

(** The shortcuts of a group as a set, sorted. *)
Definition sorted_set (scs : list string) : list string := Py.sorted (remove_dups scs).

(** The combined description in the words of the specification: each
    trimmed description after its index ["(i) "], one space between two
    of them. *)
Definition spec_combined (descriptions : list string) : string :=
  String.concat " "
    (imap (λ i descr, "(" +:+ Py.format_nat (i + 1) +:+ ") " +:+ Py.strip descr) descriptions).

Section views.
Context {so : Py.SetOrder} {ws : TextWrap.WordSplit}.

(** The items in the order in which they are written. *)
Definition written_items (d : gmap string record_org) : list (string * record_org) :=
  Py.sorted_items (map_to_list d).

(** The shortcuts of an item in the order in which they are written. *)
Definition written_shortcuts (g : record_org) : list string :=
  Py.sorted (Py.list_of_set (shortcuts g)).

(** The lines of one item: its description lines, its assignment line
    and the blank line. *)
Definition item_lines (item : string * record_org) : list string :=
  desc_lines (descriptions item.2)
    ++ [assignment_line item.1 (written_shortcuts item.2); ""].

(** All the lines of names.py. *)
Definition rendered_lines (d : gmap string record_org) : list string :=
  [_header] ++ (written_items d ≫= item_lines) ++ [_separator].

(** The names and the shortcuts on the assignment lines, from the
    first line to the last. *)
Definition assigned_names (d : gmap string record_org) : list string :=
  (written_items d).*1.

Definition assigned_shortcuts (d : gmap string record_org) : list string :=
  written_items d ≫= (λ item, written_shortcuts item.2).

End views.

(** ** Inputs used as examples *)

(** Two definitions of one name. *)
Definition close_data : list record :=
  [ mk_record (Some "Close") (Some ["CLOSE"; "SHARE_PRICE"]) (Some "Price at close");
    mk_record (Some "Close") (Some ["SHARE_PRICE"]) (Some "Alt def") ].

(** Two names, and the same records in the other order. *)
Definition two_names : list record :=
  [ mk_record (Some "Revenue") (Some ["REVENUE"; "SALES"]) (Some "Total revenue");
    mk_record (Some "Close") (Some ["CLOSE"]) None ].

Definition two_names_swapped : list record :=
  [ mk_record (Some "Close") (Some ["CLOSE"]) None;
    mk_record (Some "Revenue") (Some ["REVENUE"; "SALES"]) (Some "Total revenue") ].

(** One shortcut for two names. *)
Definition shared_shortcut : list record :=
  [ mk_record (Some "A") (Some ["X"]) None;
    mk_record (Some "B") (Some ["X"]) None ].

(** A record without name after a good one, and a record without
    shortcuts. *)
Definition nameless : list record :=
  [ mk_record (Some "Close") (Some ["CLOSE"]) None;
    mk_record None (Some ["OPEN"]) (Some "Price at open") ].

Definition no_shortcuts : list record :=
  [ mk_record (Some "Close") None (Some "Price at close") ].

(** A world in which names.py holds an older text. *)
Definition old_world : world := World (Some "old") "".

(** The file that a run leaves. *)
Definition file_after {so : Py.SetOrder} {ws : TextWrap.WordSplit}
    (data : list record) (w : world) : option string :=
  names_py (world_of (_process data w)).

(** ** Notions used in the proofs *)

Global Instance well_formed_dec (r : record) : Decision (well_formed r) :=
  and_dec _ _.

(** The elements of [x] that occurred before, [seen] being the elements
    read so far. *)
Fixpoint seen_again (seen x : list string) : list string :=
  match x with
  | [] => []
  | a :: x =>
      if decide (a ∈ seen) then a :: seen_again (seen ++ [a]) x
      else seen_again (seen ++ [a]) x
  end.

(** The group of a name before its first record. *)
Definition empty_group : record_org := RecordOrg [] [].

(** The group of [name] after the records [data], from the group [g0]
    that it had before. *)
Definition extend (g0 : option record_org) (name : string) (data : list record)
    : option record_org :=
  if decide (name ∈ names_of data)
  then Some (RecordOrg (shortcuts (default empty_group g0) ++ shortcuts_in name data)
                       (descriptions (default empty_group g0) ++ descriptions_in name data))
  else g0.

(** The index and the trimmed text of one description. *)
Definition numbered_item (i : nat) (descr : string) : string :=
  "(" +:+ Py.format_nat (i + 1) +:+ ") " +:+ Py.strip descr.

(** What the text of an item depends on: its descriptions and the set of
    its shortcuts. *)
Definition normal (g : record_org) : record_org :=
  RecordOrg (sorted_set (shortcuts g)) (descriptions g).

(** The lines of an item whose shortcuts are written as they are. *)
Definition item_block {ws : TextWrap.WordSplit} (item : string * record_org) : list string :=
  desc_lines (descriptions item.2) ++ [assignment_line item.1 (shortcuts item.2); ""].

(** A line of the wrapper [w]: one of its indents, then a text within
    the width that the indent leaves. *)
Definition line_ok (w : TextWrap.TextWrapper) (line : string) : Prop :=
  ∃ indent body,
    (indent = TextWrap.initial_indent w ∨ indent = TextWrap.subsequent_indent w)
    ∧ line = indent +:+ body
    ∧ (1 ≤ TextWrap.width w - String.length indent →
       String.length body ≤ TextWrap.width w - String.length indent).

(** A comment line of names.py. *)
Definition comment_line (line : string) : Prop :=
  (∃ text, line = "# " +:+ text) ∧ String.length line ≤ 80.

(** The lines that report the duplicates of [x]. *)
Definition duplicates_report (x : list string) : list string :=
  ("Duplicates: " +:+ Py.format_nat (length x - length (remove_dups x)))
    :: ((λ dup, "- " +:+ dup) <$> _get_duplicates x) ++ [""].

(** All the shortcuts of the input, in its order. *)
Definition shortcuts_of (data : list record) : list string :=
  data ≫= λ r, default [] (r_shortcuts r).

(** The key whose lookup fails first on a record that is not well
    formed: the name is looked up before the shortcuts. *)
Definition missing_key (r : record) : string :=
  match r_name r with None => "name" | Some _ => "shortcuts" end.

(** The lines written for a name, from the records of the input. *)
Definition name_lines {ws : TextWrap.WordSplit} (data : list record) (name : string)
    : list string :=
  desc_lines (descriptions_in name data)
    ++ [assignment_line name (sorted_set (shortcuts_in name data)); ""].

(** [close_data] with the shortcuts spread otherwise over its records. *)
Definition close_data_respread : list record :=
  [ mk_record (Some "Close") (Some ["SHARE_PRICE"]) (Some "Price at close");
    mk_record (Some "Close") (Some ["CLOSE"; "CLOSE"]) (Some "Alt def") ].

(** The characters of a text that are not whitespace, in their order. *)
Fixpoint ink (s : string) : list ascii :=
  match s with
  | String c s => if Py.isspace c then ink s else c :: ink s
  | EmptyString => []
  end.

(** The indent of the line number [i] of a wrapper. *)
Definition indent_of (w : TextWrap.TextWrapper) (i : nat) : string :=
  match i with
  | 0 => TextWrap.initial_indent w
  | S _ => TextWrap.subsequent_indent w
  end.

(** * Properties *)

(** Goals on the membership in lists built from [++] and [::]. *)
Ltac elem_of_solver :=
  rewrite ?elem_of_app, ?elem_of_cons, ?elem_of_nil in *;
  intuition (subst; try congruence).

(** Case analysis on every [decide] of the goal. *)
Ltac decide_cases :=
  repeat match goal with |- context [decide ?P] => destruct (decide P) as [?Hd|?Hd] end;
  try done; try elem_of_solver.

(** ** Strings *)

Lemma str_app_cons (x : ascii) (a b : string) : String x a +:+ b = String x (a +:+ b).
Proof. reflexivity. Qed.

Lemma str_app_nil_l (a : string) : "" +:+ a = a.
Proof. reflexivity. Qed.

Lemma str_app_assoc (a b c : string) : (a +:+ b) +:+ c = a +:+ b +:+ c.
Proof.
  induction a as [|x a IH]; [done|].
  by rewrite !str_app_cons, IH.
Qed.

Lemma str_app_nil_r (a : string) : a +:+ "" = a.
Proof. induction a as [|x a IH]; [done|]. by rewrite str_app_cons, IH. Qed.

Lemma str_length_app (a b : string) :
  String.length (a +:+ b) = String.length a + String.length b.
Proof. induction a as [|x a IH]; [done|]. rewrite str_app_cons. simpl. by rewrite IH. Qed.

Lemma join_app (l1 l2 : list string) : Py.join (l1 ++ l2) = Py.join l1 +:+ Py.join l2.
Proof.
  induction l1 as [|a l1 IH]; simpl; [done|].
  by rewrite IH, str_app_assoc.
Qed.

Lemma join_length (l : list string) :
  String.length (Py.join l) = TextWrap.chunks_len l.
Proof.
  induction l as [|a l IH]; simpl; [done|].
  by rewrite str_length_app, IH.
Qed.

Lemma unlines_app (l1 l2 : list string) : unlines (l1 ++ l2) = unlines l1 +:+ unlines l2.
Proof. unfold unlines. by rewrite fmap_app, join_app. Qed.

(** A loop of [print]s appends the text of what it prints. *)
Lemma foldl_print {A} (f : A → string) (e : string) (l : list A) (file : string) :
  foldl (λ file x, Py.print (f x) e file) file l = file +:+ Py.join ((λ x, f x +:+ e) <$> l).
Proof.
  revert file. induction l as [|x l IH]; intros file; simpl.
  - by rewrite str_app_nil_r.
  - rewrite IH. unfold Py.print. by rewrite !str_app_assoc.
Qed.

(** ** Sorting *)

Lemma sorted_Permutation (l : list string) : Py.sorted l ≡ₚ l.
Proof. apply merge_sort_Permutation. Qed.

Lemma sorted_Sorted (l : list string) : Sorted String.le (Py.sorted l).
Proof. apply (Sorted_merge_sort _). Qed.

(** The result of [sorted] depends on the elements only, not on their
    order in the argument. *)
Lemma sorted_perm_eq (l1 l2 : list string) : l1 ≡ₚ l2 → Py.sorted l1 = Py.sorted l2.
Proof.
  intros Hp. apply (Sorted_unique String.le); [apply sorted_Sorted..|].
  by rewrite !sorted_Permutation.
Qed.

Lemma elem_of_sorted (l : list string) (s : string) : s ∈ Py.sorted l ↔ s ∈ l.
Proof. by rewrite sorted_Permutation. Qed.

(** A sorted list without duplicates is strictly ascending. *)
Lemma StronglySorted_strict {A} (R : relation A) `{!AntiSymm (=) R} (l : list A) :
  StronglySorted R l → NoDup l → StronglySorted (strict R) l.
Proof.
  induction 1 as [|x l Hl IH Hx]; intros Hnd; [constructor|].
  apply NoDup_cons in Hnd as [Hx' Hnd].
  constructor; [by apply IH|].
  apply Forall_forall. intros y Hy.
  assert (R x y) as Hxy by (by eapply Forall_forall in Hx).
  split; [done|]. intros Hyx.
  assert (x = y) as -> by (by apply (anti_symm R)).
  done.
Qed.

Lemma sorted_set_ascending (scs : list string) : ascending (sorted_set scs).
Proof.
  apply StronglySorted_strict; [apply _|..].
  - apply Sorted_StronglySorted; [apply _|]. apply sorted_Sorted.
  - unfold sorted_set. rewrite sorted_Permutation. apply NoDup_remove_dups.
Qed.

Lemma elem_of_sorted_set (scs : list string) (s : string) : s ∈ sorted_set scs ↔ s ∈ scs.
Proof. unfold sorted_set. by rewrite elem_of_sorted, elem_of_remove_dups. Qed.

Lemma remove_dups_Permutation (l1 l2 : list string) :
  l1 ≡ₚ l2 → remove_dups l1 ≡ₚ remove_dups l2.
Proof.
  intros Hp. apply NoDup_Permutation; [apply NoDup_remove_dups..|].
  intros x. by rewrite !elem_of_remove_dups, Hp.
Qed.

Lemma sorted_set_perm (l1 l2 : list string) : l1 ≡ₚ l2 → sorted_set l1 = sorted_set l2.
Proof. intros Hp. apply sorted_perm_eq. by apply remove_dups_Permutation. Qed.

(** Whatever the order of the set, the shortcuts are written in the same
    order. *)
Lemma written_shortcuts_eq {so : Py.SetOrder} (g : record_org) :
  written_shortcuts g = sorted_set (shortcuts g).
Proof. apply sorted_perm_eq, Py.list_of_set_perm. Qed.

(** *** Sorted items *)

Global Instance item_le_trans {V} : Transitive (@Py.item_le V).
Proof. intros a b c. unfold Py.item_le. apply (transitivity (R:=String.le)). Qed.

Global Instance item_le_total {V} : Total (@Py.item_le V).
Proof. intros a b. unfold Py.item_le. apply (total String.le). Qed.

Lemma sorted_items_Permutation {V} (l : list (string * V)) : Py.sorted_items l ≡ₚ l.
Proof. apply merge_sort_Permutation. Qed.

Lemma NoDup_fst_inj {V} (l : list (string * V)) k v1 v2 :
  NoDup l.*1 → (k, v1) ∈ l → (k, v2) ∈ l → v1 = v2.
Proof.
  intros Hnd H1 H2.
  apply (elem_of_list_to_map (M:=gmap string)) in H1, H2; [|done..]. congruence.
Qed.

(** The items of a dictionary come out of [sorted] in one order only. *)
Lemma sorted_items_perm_eq {V} (l1 l2 : list (string * V)) :
  NoDup l1.*1 → l1 ≡ₚ l2 → Py.sorted_items l1 = Py.sorted_items l2.
Proof.
  intros Hnd Hp. apply (Sorted_unique_strong Py.item_le).
  - intros [k1 v1] [k2 v2] H1 H2 Hle1 Hle2.
    assert (k1 = k2) as -> by (by apply (anti_symm String.le)).
    f_equal. apply (NoDup_fst_inj l1 k2); [done|..].
    + by rewrite <-(sorted_items_Permutation l1).
    + by rewrite Hp, <-(sorted_items_Permutation l2).
  - apply (Sorted_merge_sort _).
  - apply (Sorted_merge_sort _).
  - by rewrite !sorted_items_Permutation.
Qed.

Lemma StronglySorted_fst {V} (l : list (string * V)) :
  StronglySorted Py.item_le l → StronglySorted String.le l.*1.
Proof.
  induction 1 as [|x l Hl IH Hx]; simpl; constructor; [done|].
  apply Forall_fmap. eapply Forall_impl; [done|]. by intros y.
Qed.

Lemma sorted_items_ascending {V} (l : list (string * V)) :
  NoDup l.*1 → ascending (Py.sorted_items l).*1.
Proof.
  intros Hnd. apply StronglySorted_strict; [apply _|..].
  - apply StronglySorted_fst, Sorted_StronglySorted; [apply _|].
    apply (Sorted_merge_sort _).
  - by rewrite sorted_items_Permutation.
Qed.

(** Sorting by key commutes with a change of the values. *)
Lemma sorted_items_fmap {V W} (f : V → W) (l : list (string * V)) :
  NoDup l.*1 →
  prod_map id f <$> Py.sorted_items l = Py.sorted_items (prod_map id f <$> l).
Proof.
  intros Hnd.
  assert ((prod_map id f <$> l).*1 = l.*1) as Hfst.
  { rewrite <-list_fmap_compose. by apply list_fmap_ext; intros ? []. }
  assert (Sorted Py.item_le (prod_map id f <$> Py.sorted_items l)) as Hs.
  { pose proof (Sorted_merge_sort (@Py.item_le V) l) as Hs. fold (Py.sorted_items l) in Hs.
    induction Hs as [|x l' Hl' IH Hx]; simpl; constructor; [done|].
    destruct Hx; simpl; constructor. done. }
  apply (Sorted_unique_strong Py.item_le); [|done|apply (Sorted_merge_sort _)|].
  - intros [k1 v1] [k2 v2] H1 H2 Hle1 Hle2.
    assert (k1 = k2) as -> by (by apply (anti_symm String.le)).
    f_equal. apply (NoDup_fst_inj (prod_map id f <$> l) k2); [by rewrite Hfst|..].
    + by rewrite <-(sorted_items_Permutation l).
    + by rewrite <-(sorted_items_Permutation (_ <$> l)).
  - by rewrite !sorted_items_Permutation.
Qed.

(** ** The text of names.py *)

Lemma foldl_print_noend {A} (f : A → string) (l : list A) (file : string) :
  foldl (λ file x, Py.print (f x) "" file) file l = file +:+ Py.join (f <$> l).
Proof.
  rewrite foldl_print. do 2 f_equal.
  apply list_fmap_ext. intros _ x _. apply str_app_nil_r.
Qed.

Section text.
Context {so : Py.SetOrder} {ws : TextWrap.WordSplit}.

(** What one pass of the second loop appends to the file. *)
Lemma write_item_text (file : string) (item : string * record_org) :
  write_item file item = file +:+ unlines (item_lines item).
Proof.
  destruct item as [name g]. unfold write_item, item_lines, unlines; simpl.
  rewrite (foldl_print (λ x, x)), (foldl_print_noend (λ x, x +:+ " = ")).
  unfold Py.print, assignment_line, written_shortcuts.
  rewrite fmap_app, join_app. simpl.
  by rewrite !str_app_assoc, !str_app_nil_l, str_app_nil_r.
Qed.

Lemma foldl_write_item (file : string) (items : list (string * record_org)) :
  foldl write_item file items = file +:+ unlines (items ≫= item_lines).
Proof.
  revert file. induction items as [|item items IH]; intros file; simpl.
  - by rewrite str_app_nil_r.
  - by rewrite IH, write_item_text, unlines_app, str_app_assoc.
Qed.

(** The file is the text of its lines. *)
Lemma write_names_text (d : gmap string record_org) :
  write_names d = unlines (rendered_lines d).
Proof.
  unfold write_names, rendered_lines. rewrite foldl_write_item.
  unfold Py.print. rewrite !unlines_app. unfold written_items.
  unfold unlines at 1 4. simpl.
  by rewrite !str_app_assoc, !str_app_nil_l, !str_app_nil_r.
Qed.

(** An item is written from its name, its descriptions and the set of
    its shortcuts. *)
Lemma item_lines_eq (item : string * record_org) :
  item_lines item =
    desc_lines (descriptions item.2)
      ++ [assignment_line item.1 (sorted_set (shortcuts item.2)); ""].
Proof. unfold item_lines. by rewrite written_shortcuts_eq. Qed.
End text.

(** ** The first loop *)


Lemma names_of_cons (r : record) (data : list record) :
  names_of (r :: data) = option_list (r_name r) ++ names_of data.
Proof. unfold names_of. simpl. by destruct (r_name r). Qed.

Lemma shortcuts_in_absent (name : string) (data : list record) :
  name ∉ names_of data → shortcuts_in name data = [].
Proof.
  induction data as [|r data IH]; [done|].
  rewrite names_of_cons. intros Hn. unfold shortcuts_in. rewrite bind_cons.
  fold (shortcuts_in name data). rewrite IH by elem_of_solver.
  case_decide as Hr; [|done]. rewrite Hr in Hn. simpl in Hn. elem_of_solver.
Qed.

Lemma descriptions_in_absent (name : string) (data : list record) :
  name ∉ names_of data → descriptions_in name data = [].
Proof.
  induction data as [|r data IH]; [done|].
  rewrite names_of_cons. intros Hn. unfold descriptions_in. rewrite bind_cons.
  fold (descriptions_in name data). rewrite IH by elem_of_solver.
  case_decide as Hr; [|done]. rewrite Hr in Hn. simpl in Hn. elem_of_solver.
Qed.

Lemma organize_spec (data : list record) (st : organized) :
  Forall well_formed data →
  ∃ st', organize st data = inr st'
    ∧ all_names st' = all_names st ++ names_of data
    ∧ all_shortcuts st' = all_shortcuts st ++ (data ≫= λ r, default [] (r_shortcuts r))
    ∧ ∀ name, data_organized st' !! name = extend (data_organized st !! name) name data.
Proof.
  intros Hwf. revert st.
  induction Hwf as [|r data [[name Hname] [scs Hscs]] Hwf IH]; intros st.
  { exists st. split_and!; [done|by rewrite app_nil_r..|done]. }
  cbn [organize]. unfold organize_record. rewrite Hname, Hscs.
  match goal with |- context [organize ?s data] => destruct (IH s) as (st' & -> & Hn & Hs & Hd) end.
  exists st'. split; [done|]. simpl in Hn, Hs, Hd.
  rewrite names_of_cons, Hname, bind_cons, Hscs. simpl.
  split_and!; [by rewrite Hn, <-app_assoc|by rewrite Hs, <-app_assoc|].
  intros n. rewrite Hd. unfold extend. rewrite names_of_cons, Hname.
  cbn [option_list app].
  unfold shortcuts_in, descriptions_in. rewrite !bind_cons, Hname.
  fold (shortcuts_in n data) (descriptions_in n data).
  destruct (decide (name = n)) as [->|Hne].
  - rewrite lookup_insert_eq, Hscs.
    destruct (decide (Some n = Some n)) as [_|?]; [|done].
    rewrite (decide_True (P:=n ∈ n :: names_of data)) by elem_of_solver.
    fold empty_group.
    destruct (decide (n ∈ names_of data)) as [Hin|Hin].
    + case_decide; simpl; by rewrite <-?app_assoc.
    + rewrite shortcuts_in_absent, descriptions_in_absent by done.
      case_decide; simpl; by rewrite ?app_nil_r.
  - rewrite lookup_insert_ne by done.
    destruct (decide (Some name = Some n)) as [?|_]; [congruence|]. simpl.
    destruct (decide (n ∈ names_of data)) as [Hin|Hin].
    + destruct (decide (n ∈ name :: names_of data)) as [_|Hn']; [reflexivity|].
      destruct Hn'. by right.
    + destruct (decide (n ∈ name :: names_of data)) as [Hn'|_]; [|reflexivity].
      apply elem_of_cons in Hn' as [?|?]; congruence.
Qed.

(** The dictionary after the loop is the grouping of the records by
    name. *)
Lemma organize_groups (data : list record) :
  Forall well_formed data →
  ∃ st, organize organized_init data = inr st
    ∧ all_names st = names_of data
    ∧ ∀ name, data_organized st !! name = name_group name data.
Proof.
  intros Hwf. destruct (organize_spec data organized_init Hwf) as (st & Ho & Hn & _ & Hd).
  exists st. split_and!; [done..|].
  intros name. rewrite Hd. simpl. rewrite lookup_empty. done.
Qed.


(** A record that lacks a required key stops the loop. *)
Lemma organize_raises (data : list record) (st : organized) :
  ¬ Forall well_formed data → ∃ e, organize st data = inl e.
Proof.
  revert st. induction data as [|r data IH]; intros st Hn.
  { destruct Hn. constructor. }
  simpl. unfold organize_record.
  destruct (r_name r) as [name|] eqn:Hname; [|by eexists].
  destruct (r_shortcuts r) as [scs|] eqn:Hscs; [|by eexists].
  apply IH. intros Hwf. apply Hn. constructor; [|done].
  split; [by rewrite Hname|by rewrite Hscs].
Qed.

(** ** Duplicates *)


Lemma count_cons (v a : string) (l : list string) :
  count v (a :: l) = (if decide (v = a) then 1 else 0) + count v l.
Proof. unfold count. rewrite filter_cons. by case_decide. Qed.

Lemma put_length (idx : list nat) (a : list bool) : length (Np.put idx false a) = length a.
Proof.
  revert a. induction idx as [|j idx IH]; intros a; simpl; [done|].
  unfold Np.put in *. simpl. by rewrite IH, length_insert.
Qed.

Lemma put_lookup (idx : list nat) (a : list bool) (i : nat) :
  Np.put idx false a !! i = (λ b, if decide (i ∈ idx) then false else b) <$> a !! i.
Proof.
  revert a. induction idx as [|j idx IH]; intros a.
  { simpl. destruct (a !! i); simpl; [|done]. decide_cases. }
  unfold Np.put in *. simpl. rewrite IH.
  destruct (decide (i = j)) as [->|Hne].
  - destruct (a !! j) as [b|] eqn:Hb.
    + rewrite list_lookup_insert_eq by (by eapply lookup_lt_Some). simpl.
      decide_cases.
    + rewrite list_insert_ge by (by apply lookup_ge_None). by rewrite Hb.
  - rewrite list_lookup_insert_ne by done.
    destruct (a !! i); simpl; [|done]. f_equal. decide_cases.
Qed.

Lemma first_index_Some (v : string) (x : list string) (i : nat) :
  Np.first_index v x = Some i ↔ x !! i = Some v ∧ v ∉ take i x.
Proof.
  unfold Np.first_index. split.
  - intros Hf. apply fmap_Some in Hf as ([j y] & Hf & ->). simpl.
    apply list_find_Some in Hf as (Hj & <- & Hleast). split; [done|].
    intros (k & Hk)%list_elem_of_lookup.
    pose proof (lookup_lt_Some _ _ _ Hk) as Hlt. rewrite length_take in Hlt.
    rewrite lookup_take_lt in Hk by lia. eapply Hleast; [done|lia|done].
  - intros [Hi Hnot]. apply fmap_Some. exists (i, v). split; [|done].
    apply list_find_Some. split_and!; [done..|].
    intros j y Hj Hlt ->. apply Hnot. apply list_elem_of_lookup. exists j.
    by rewrite lookup_take_lt.
Qed.

(** The positions that [np.unique] returns are those of the first
    occurrences. *)
Lemma unique_index_elem_of (x : list string) (i : nat) :
  i ∈ (Np.unique_index x).2 ↔ ∃ v, x !! i = Some v ∧ v ∉ take i x.
Proof.
  unfold Np.unique_index. simpl. rewrite list_elem_of_omap. split.
  - intros (v & _ & Hf). exists v. by apply first_index_Some.
  - intros (v & Hi & Hnot). exists v. split; [|by apply first_index_Some].
    apply elem_of_sorted, elem_of_remove_dups. by eapply list_elem_of_lookup_2.
Qed.

Lemma select_seen_again (mask : list bool) (pre suf : list string) :
  length mask = length suf →
  (∀ k a, suf !! k = Some a →
     mask !! k = Some (bool_decide (a ∈ pre ++ take k suf))) →
  Np.select mask suf = seen_again pre suf.
Proof.
  revert mask pre. induction suf as [|a suf IH]; intros mask pre Hlen Hmask.
  { by destruct mask. }
  destruct mask as [|b mask]; [done|]. simpl.
  pose proof (Hmask 0 a eq_refl) as H0. simpl in H0. rewrite app_nil_r in H0.
  injection H0 as ->.
  rewrite (IH mask (pre ++ [a])).
  - case_bool_decide; by decide_cases.
  - simpl in Hlen. lia.
  - intros k a' Hk. pose proof (Hmask (S k) a' Hk) as HS. simpl in HS.
    by rewrite HS, <-app_assoc.
Qed.

(** The duplicates are the elements met again, from left to right. *)
Lemma get_duplicates_seen_again (x : list string) : _get_duplicates x = seen_again [] x.
Proof.
  unfold _get_duplicates.
  destruct (Np.unique_index x) as [u idx] eqn:Hu.
  assert (∀ i, i ∈ idx ↔ ∃ v, x !! i = Some v ∧ v ∉ take i x) as Hidx.
  { intros i. rewrite <-unique_index_elem_of. by rewrite Hu. }
  apply select_seen_again.
  - unfold Np.ones. by rewrite put_length, length_replicate.
  - intros k a Hk. rewrite put_lookup. unfold Np.ones.
    rewrite lookup_replicate_2 by (by eapply lookup_lt_Some). simpl. f_equal.
    destruct (decide (k ∈ idx)) as [Hin|Hin].
    + apply Hidx in Hin as (v & Hv & Hnot). simplify_eq.
      by rewrite bool_decide_eq_false_2.
    + symmetry. apply bool_decide_eq_true_2. simpl.
      destruct (decide (a ∈ take k x)); [done|]. destruct Hin. apply Hidx. eauto.
Qed.

Lemma count_seen_again (v : string) (seen x : list string) :
  count v (seen_again seen x) =
    if decide (v ∈ seen) then count v x else pred (count v x).
Proof.
  revert seen. induction x as [|a x IH]; intros seen.
  { simpl. decide_cases. }
  simpl. rewrite count_cons.
  destruct (decide (a ∈ seen)) as [Ha|Ha]; rewrite ?count_cons, IH;
    destruct (decide (v = a)) as [->|Hne]; decide_cases.
Qed.

(** C2: for every list [x] and every value [v], the result of
    [_get_duplicates] holds [v] one time less than [x] does ([k - 1]
    times for a value that occurs [k] times, and never for a value that
    does not occur); the empty list gives the empty list, and
    ["A", "A", "B"] gives the one element ["A"]. The result is a function
    of [x] alone. *)
Theorem get_duplicates_count :
  (∀ (x : list string) (v : string), count v (_get_duplicates x) = pred (count v x))
  ∧ _get_duplicates [] = []
  ∧ _get_duplicates ["A"; "A"; "B"] = ["A"].
Proof.
  split_and!; [|reflexivity..].
  intros x v. rewrite get_duplicates_seen_again, count_seen_again.
  decide_cases.
Qed.

(** ** Descriptions *)

Lemma rstrip_app_space (s : string) : Py.rstrip (s +:+ " ") = Py.rstrip s.
Proof.
  induction s as [|c s IH]; [done|].
  rewrite str_app_cons. simpl. by rewrite IH.
Qed.

Lemma rstrip_app (p s : string) :
  Py.rstrip s ≠ "" → Py.rstrip (p +:+ s) = p +:+ Py.rstrip s.
Proof.
  intros Hs. induction p as [|c p IH]; [done|].
  rewrite !str_app_cons. simpl. rewrite IH.
  destruct p as [|d p]; [|by rewrite str_app_cons].
  rewrite str_app_nil_l. by destruct (Py.rstrip s).
Qed.

Lemma rstrip_idemp (s : string) : Py.rstrip (Py.rstrip s) = Py.rstrip s.
Proof.
  induction s as [|c s IH]; [done|]. simpl.
  destruct (Py.rstrip s) as [|d t] eqn:Ht.
  - destruct (Py.isspace c) eqn:Hc; simpl; [done|]. by rewrite Hc.
  - simpl in *. by rewrite IH.
Qed.

Lemma strip_rstrip (s : string) : Py.rstrip (Py.strip s) = Py.strip s.
Proof. apply rstrip_idemp. Qed.

(** The loop that numbers the descriptions appends to [description], for
    each of them, its index and text and a space. *)
Lemma numbered_foldl (l : list (nat * string)) (description : string) :
  foldl (λ description '(i, descr),
           description +:+ ("(" +:+ Py.format_nat (i + 1) +:+ ") ")
             +:+ Py.strip descr +:+ " ") description l
  = description +:+ Py.join ((λ '(i, descr), numbered_item i descr +:+ " ") <$> l).
Proof.
  revert description. induction l as [|[i d] l IH]; intros description; simpl.
  - by rewrite str_app_nil_r.
  - rewrite IH. unfold numbered_item. by rewrite !str_app_assoc.
Qed.

Lemma concat_space (l : list string) :
  l ≠ [] → String.concat " " l +:+ " " = Py.join ((λ s, s +:+ " ") <$> l).
Proof.
  induction l as [|a [|b l] IH]; intros Hne; [done|..].
  - simpl. by rewrite str_app_nil_r.
  - change (String.concat " " (a :: b :: l)) with (a +:+ " " +:+ String.concat " " (b :: l)).
    rewrite !str_app_assoc, IH by done. simpl. by rewrite !str_app_assoc.
Qed.

Lemma spec_combined_eq (descriptions : list string) :
  spec_combined descriptions = String.concat " " (imap numbered_item descriptions).
Proof. done. Qed.

Lemma numbered_eq (descriptions : list string) :
  descriptions ≠ [] → numbered descriptions = spec_combined descriptions +:+ " ".
Proof.
  intros Hne. unfold numbered. rewrite numbered_foldl, str_app_nil_l.
  rewrite spec_combined_eq, concat_space by (by destruct descriptions).
  f_equal. rewrite !fmap_imap. by apply imap_ext.
Qed.

Lemma spec_combined_paren (descriptions : list string) :
  descriptions ≠ [] → ∃ rest, spec_combined descriptions = String "(" rest.
Proof.
  destruct descriptions as [|d [|d' l]]; intros Hne; [done|..].
  - by eexists.
  - rewrite spec_combined_eq.
    change (imap numbered_item (d :: d' :: l))
      with (numbered_item 0 d :: imap (numbered_item ∘ S) (d' :: l)).
    set (tl := imap _ (d' :: l)).
    change (String.concat " " (numbered_item 0 d :: tl))
      with (match tl with [] => numbered_item 0 d
            | _ => numbered_item 0 d +:+ " " +:+ String.concat " " tl end).
    by eexists.
Qed.

(** The text of several descriptions is the combined text of the
    specification without the whitespace at its end. *)
Lemma wrapped_text_numbered (descriptions : list string) :
  descriptions ≠ [] →
  Py.strip (numbered descriptions) = Py.rstrip (spec_combined descriptions).
Proof.
  intros Hne. rewrite numbered_eq by done.
  destruct (spec_combined_paren descriptions Hne) as [rest ->].
  unfold Py.strip. rewrite str_app_cons. cbn [Py.lstrip].
  change (Py.isspace "(") with false. cbn iota.
  by rewrite <-str_app_cons, rstrip_app_space.
Qed.

(** C8, amended: the text that is wrapped is, for one description, that
    description trimmed, and for several descriptions the trimmed
    descriptions, each after its index ["(i) "] counted from 1, with one
    space between two of them, this combined text being trimmed in turn:
    when the last description is blank the text ends with the last index
    ["(n)"] and no space. *)
Theorem wrapped_text_spec (descriptions : list string) :
  wrapped_text descriptions =
    match descriptions with
    | [] => ""
    | [d] => Py.strip d
    | _ => Py.strip (spec_combined descriptions)
    end.
Proof.
  destruct descriptions as [|d [|d' l]]; [done..|].
  unfold wrapped_text, description_of.
  rewrite wrapped_text_numbered by done.
  destruct (spec_combined_paren (d :: d' :: l)) as [rest ->]; done.
Qed.

(** C8, as stated, fails for a blank last description: the combined text
    of the specification keeps the space after the last index, the text
    of the script does not. *)
Lemma wrapped_text_blank_last :
  wrapped_text ["a"; " "] = "(1) a (2)"
  ∧ spec_combined ["a"; " "] = "(1) a (2) "
  ∧ wrapped_text ["a"; " "] ≠ spec_combined ["a"; " "].
Proof. split_and!; [reflexivity..|]. by vm_compute. Qed.

(** The example of the specification. *)
Example wrapped_text_close :
  wrapped_text ["Price at close"; "Alt def"] = "(1) Price at close (2) Alt def".
Proof. reflexivity. Qed.

Lemma concat_snoc (sep : string) (l : list string) (x : string) :
  ∃ p, String.concat sep (l ++ [x]) = p +:+ x.
Proof.
  induction l as [|a l [p IH]]; [by exists ""|].
  exists (a +:+ sep +:+ p).
  change ((a :: l) ++ [x]) with (a :: (l ++ [x])).
  destruct (l ++ [x]) as [|b l'] eqn:Hl; [by destruct l|].
  change (String.concat sep (a :: b :: l')) with (a +:+ sep +:+ String.concat sep (b :: l')).
  by rewrite IH, !str_app_assoc.
Qed.

(** When the last description is not blank, nothing is trimmed. *)
Lemma wrapped_text_exact (descriptions : list string) (d : string) :
  1 < length descriptions → last descriptions = Some d → Py.strip d ≠ "" →
  wrapped_text descriptions = spec_combined descriptions.
Proof.
  intros Hlen Hlast Hd.
  unfold wrapped_text.
  assert (description_of descriptions = numbered descriptions) as ->.
  { by destruct descriptions as [|? [|? ?]]; [..|done]; simpl in Hlen; lia. }
  rewrite wrapped_text_numbered by (by destruct descriptions).
  apply last_Some in Hlast as [l' ->].
  rewrite spec_combined_eq, imap_app. simpl.
  destruct (concat_snoc " " (imap numbered_item l') (numbered_item (length l' + 0) d))
    as [p ->].
  unfold numbered_item. rewrite <-!str_app_assoc.
  rewrite rstrip_app; by rewrite strip_rstrip.
Qed.

(** ** Wrapping *)

Section wrapping.
Import TextWrap.

Lemma str_take_length (n : nat) (s : string) :
String.length (str_take n s) = n `min` String.length s.
Proof.
revert s. induction n as [|n IH]; intros [|c s]; simpl; [done..|].
by rewrite IH.
Qed.

Lemma str_drop_length (n : nat) (s : string) :
String.length (str_drop n s) = String.length s - n.
Proof.
revert s. induction n as [|n IH]; intros [|c s]; simpl; [done..|].
by rewrite IH.
Qed.

Lemma rfind_hyphen_lt (s : string) (stop i : nat) : rfind_hyphen s stop = Some i → i < stop.
Proof.
revert s i. induction stop as [|stop IH]; intros [|c s] i; simpl; [done..|].
destruct (rfind_hyphen s stop) as [j|] eqn:Hj.
- intros [= <-]. apply IH in Hj. lia.
- case_decide; [|done]. intros [= <-]. lia.
Qed.

Lemma chunks_len_app (l1 l2 : list string) :
chunks_len (l1 ++ l2) = chunks_len l1 + chunks_len l2.
Proof. apply sum_list_with_app. Qed.

(** The inner loop moves a prefix of the chunks to the line, keeps the
  line within the width, and stops at a chunk that does not fit. *)
Lemma fill_line_spec (width : nat) (chunks cur_line : list string) (cur_len : nat)
  (cur_line' : list string) (cur_len' : nat) (chunks' : list string) :
fill_line width cur_line cur_len chunks = (cur_line', cur_len', chunks') →
∃ taken, chunks = taken ++ chunks'
  ∧ cur_line' = cur_line ++ taken
  ∧ cur_len' = cur_len + chunks_len taken
  ∧ (cur_len ≤ width → cur_len' ≤ width)
  ∧ (∀ c, head chunks' = Some c → width < cur_len' + String.length c).
Proof.
revert cur_line cur_len. induction chunks as [|c chunks IH]; intros cur_line cur_len; simpl.
{ intros [= <- <- <-]. exists [].
  split_and!; [done|by rewrite app_nil_r|unfold chunks_len; simpl; lia|done|done]. }
case_decide as Hfit.
- intros Hf. apply IH in Hf as (taken & -> & -> & -> & Hle & Hhd).
  exists (c :: taken). split_and!; [done|by rewrite <-app_assoc| |lia|done].
  unfold chunks_len. simpl. lia.
- intros [= <- <- <-]. exists [].
  split_and!; [done|by rewrite app_nil_r|unfold chunks_len; simpl; lia|done|].
  intros c' [= <-]. lia.
Qed.

Lemma handle_long_word_spec (chunk : string) (rest cur_line : list string)
  (cur_len width : nat) (cur_line' chunks' : list string) :
handle_long_word chunk rest cur_line cur_len width = (cur_line', chunks') →
∃ end_, cur_line' = cur_line ++ [str_take end_ chunk]
  ∧ chunks' = str_drop end_ chunk :: rest
  ∧ (1 ≤ width → cur_len ≤ width → cur_len + end_ ≤ width)
  ∧ (cur_len = 0 → 1 ≤ end_).
Proof.
unfold handle_long_word. intros [= <- <-].
eexists. split_and!; [done|done|..].
- intros Hw Hc. destruct (decide (width < 1)) as [?|_]; [lia|].
  case_decide; [|lia].
  destruct (rfind_hyphen chunk (width - cur_len)) as [hyphen|] eqn:Hh; [|lia].
  apply rfind_hyphen_lt in Hh. destruct (_ && _); lia.
- intros ->. rewrite Nat.sub_0_r.
  set (space_left := if decide (width < 1) then 1 else width).
  assert (1 ≤ space_left) by (unfold space_left; case_decide; lia).
  case_decide; [|done]. destruct (rfind_hyphen _ _); [|done].
  destruct (_ && _); lia.
Qed.

Lemma passes_app (l1 l2 : list string) : passes (l1 ++ l2) = passes l1 + passes l2.
Proof. unfold passes. rewrite length_app, chunks_len_app. lia. Qed.

Lemma passes_cons (c : string) (l : list string) :
passes (c :: l) = S (String.length c) + passes l.
Proof. unfold passes, chunks_len. simpl. lia. Qed.

Lemma chunks_len_removelast (l : list string) : chunks_len (removelast l) ≤ chunks_len l.
Proof.
induction l as [|a [|b l] IH]; simpl in *; unfold chunks_len in *; simpl in *; lia.
Qed.

(** One pass of the outer loop uses up a chunk or a character, and adds
  at most one line, which is the indent followed by a text within the
  width that the indent leaves. *)
Lemma wrap_line_spec (w : TextWrapper) (lines chunks lines' chunks' : list string) :
chunks ≠ [] →
wrap_line w lines chunks = (lines', chunks') →
let indent := if lines is [] then initial_indent w else subsequent_indent w in
passes chunks' < passes chunks
∧ (lines' = lines
   ∨ ∃ cur_line, lines' = lines ++ [indent +:+ Py.join cur_line]
       ∧ (1 ≤ width w - String.length indent →
          chunks_len cur_line ≤ width w - String.length indent)).
Proof.
intros Hne. unfold wrap_line.
set (indent := if lines is [] then initial_indent w else subsequent_indent w).
set (wd := width w - String.length indent).
set (chunks1 := match chunks, lines with
                | c :: rest, _ :: _ => if decide (Py.strip c = "") then rest else chunks
                | _, _ => chunks
                end).
assert (passes chunks1 ≤ passes chunks ∧ (chunks1 = [] → passes chunks1 < passes chunks))
  as [Hp1 Hp1'].
{ unfold chunks1. destruct chunks as [|c rest]; [done|].
  destruct lines; [by rewrite passes_cons; split; [lia|]|].
  case_decide; rewrite passes_cons; split; try lia; done. }
destruct (fill_line wd [] 0 chunks1) as [[cur_line cur_len] chunks2] eqn:Hfill.
apply fill_line_spec in Hfill as (taken & Hc1 & -> & -> & Hle & Hhd).
simpl in *. specialize (Hle ltac:(lia)).
rewrite Hc1, passes_app in Hp1, Hp1'.
set (step3 := match chunks2 with
              | c :: rest =>
                  if decide (wd < String.length c)
                  then handle_long_word c rest taken (chunks_len taken) wd
                  else (taken, chunks2)
              | [] => (taken, chunks2)
              end).
assert (∃ cur_line3 chunks3, step3 = (cur_line3, chunks3)
          ∧ passes chunks3 ≤ passes chunks2
          ∧ (taken = [] → chunks2 ≠ [] → passes chunks3 < passes chunks2)
          ∧ (1 ≤ wd → chunks_len cur_line3 ≤ wd)) as (cur_line3 & chunks3 & -> & Hp3 & Hp3' & Hl3).
{ unfold step3. destruct chunks2 as [|c rest].
  { eexists _, _. split_and!; [done|done|done|done]. }
  case_decide as Hlong.
  - destruct (handle_long_word c rest taken (chunks_len taken) wd)
      as [cur_line3 chunks3] eqn:Hh.
    apply handle_long_word_spec in Hh as (e & -> & -> & Hb & He).
    eexists _, _. split; [done|].
    rewrite !passes_cons, str_drop_length, chunks_len_app.
    assert (chunks_len [str_take e c] = e `min` String.length c) as ->.
    { unfold chunks_len. simpl. rewrite str_take_length. lia. }
    split_and!; [lia| |intros Hw; specialize (Hb Hw Hle); lia].
    intros -> _. specialize (He eq_refl). lia.
  - eexists _, _. split_and!; [done|done| |done].
    intros -> _. specialize (Hhd c eq_refl). unfold chunks_len in Hhd. simpl in Hhd. lia. }
set (cur_line4 := match last cur_line3 with
                  | Some c => if decide (Py.strip c = "") then removelast cur_line3 else cur_line3
                  | None => cur_line3
                  end).
assert (chunks_len cur_line4 ≤ chunks_len cur_line3) as Hl4.
{ unfold cur_line4. destruct (last cur_line3); [|done].
  case_decide; [apply chunks_len_removelast|done]. }
intros [= <- <-]. split.
- destruct taken as [|t taken].
  + destruct chunks2 as [|c2 rest2].
    * specialize (Hp1' eq_refl). lia.
    * specialize (Hp3' eq_refl ltac:(done)). lia.
  + rewrite passes_cons in Hp1. lia.
- destruct cur_line4 as [|c4 l4] eqn:H4; [by left|].
  right. eexists. split; [done|]. intros Hw. specialize (Hl3 Hw). lia.
Qed.


(** The outer loop ends within [passes chunks] passes, and all its lines
  are lines of the wrapper. *)
Lemma wrap_loop_enough (w : TextWrapper) (fuel : nat) (lines chunks : list string) :
passes chunks ≤ fuel →
∃ lines', wrap_loop fuel w lines chunks = Some lines'
  ∧ (Forall (line_ok w) lines → Forall (line_ok w) lines').
Proof.
revert lines chunks. induction fuel as [|fuel IH]; intros lines chunks Hfuel.
{ destruct chunks as [|c chunks]; [by eexists|]. rewrite passes_cons in Hfuel. lia. }
destruct chunks as [|c chunks]; [by eexists|].
cbn [wrap_loop].
destruct (wrap_line w lines (c :: chunks)) as [lines1 chunks1] eqn:Hline.
apply wrap_line_spec in Hline as [Hlt Hlines]; [|done].
destruct (IH lines1 chunks1) as (lines' & -> & Hok); [lia|].
exists lines'. split; [done|]. intros Hall. apply Hok.
destruct Hlines as [->|(cur_line & -> & Hlen)]; [done|].
apply Forall_app. split; [done|]. apply Forall_singleton.
eexists _, (Py.join cur_line). split_and!; [|done|by rewrite join_length].
destruct lines; auto.
Qed.

Lemma wrap_chunks_total (w : TextWrapper) (chunks : list string) :
wrap_loop (passes chunks) w [] chunks = Some (wrap_chunks w chunks).
Proof.
unfold wrap_chunks.
destruct (wrap_loop_enough w (passes chunks) [] chunks) as (lines & -> & _); done.
Qed.

Lemma wrap_chunks_ok (w : TextWrapper) (chunks : list string) :
Forall (line_ok w) (wrap_chunks w chunks).
Proof.
unfold wrap_chunks.
destruct (wrap_loop_enough w (passes chunks) [] chunks) as (lines & -> & Hok); [done|].
by apply Hok.
Qed.


Lemma wrapper_line_ok (line : string) : line_ok wrapper line → comment_line line.
Proof.
intros (indent & body & Hind & -> & Hlen).
assert (indent = "# ") as -> by (by destruct Hind). split.
- by exists body.
- rewrite str_length_app. simpl in *. lia.
Qed.

(** C9: a name without descriptions gets no description lines; for a
  name with descriptions the lines are those that the wrapper of width
  80 makes of the text, the wrapper does return them, and each of them
  begins with ["# "] and has at most 80 characters. *)
Theorem desc_lines_wrapped {ws : WordSplit} (descriptions : list string) :
desc_lines [] = []
∧ desc_lines descriptions =
    (if descriptions is [] then [] else wrap wrapper (wrapped_text descriptions))
∧ is_Some (wrap_loop (passes (split_chunks (wrapped_text descriptions))) wrapper []
             (split_chunks (wrapped_text descriptions)))
∧ Forall comment_line (desc_lines descriptions).
Proof.
split_and!.
- done.
- by destruct descriptions.
- rewrite wrap_chunks_total. by eexists.
- unfold desc_lines. case_decide; [|done].
  eapply Forall_impl; [apply wrap_chunks_ok|]. apply wrapper_line_ok.
Qed.

End wrapping.

(** ** Counting names and shortcuts *)

Lemma count_Permutation (v : string) (l1 l2 : list string) :
  l1 ≡ₚ l2 → count v l1 = count v l2.
Proof. intros Hp. unfold count. by rewrite Hp. Qed.

Lemma count_app (v : string) (l1 l2 : list string) :
  count v (l1 ++ l2) = count v l1 + count v l2.
Proof. unfold count. by rewrite filter_app, length_app. Qed.

Lemma count_absent (v : string) (l : list string) : v ∉ l → count v l = 0.
Proof.
  induction l as [|a l IH]; [done|]. intros Hn. rewrite count_cons, IH by elem_of_solver.
  case_decide; [elem_of_solver|done].
Qed.

Lemma count_NoDup (v : string) (l : list string) :
  NoDup l → count v l = if decide (v ∈ l) then 1 else 0.
Proof.
  induction 1 as [|a l Ha Hnd IH]; [done|].
  rewrite count_cons, IH.
  destruct (decide (v = a)) as [->|Hne].
  - rewrite decide_False by done. by rewrite decide_True by elem_of_solver.
  - destruct (decide (v ∈ l)).
    + by rewrite decide_True by elem_of_solver.
    + by rewrite decide_False by elem_of_solver.
Qed.

Lemma count_bind {A} (v : string) (f : A → list string) (l : list A) :
  count v (l ≫= f) = sum_list_with (λ x, count v (f x)) l.
Proof.
  induction l as [|a l IH]; [done|].
  by rewrite bind_cons, count_app, IH.
Qed.

Lemma sum_indicator {A} (P : A → Prop) `{!∀ x, Decision (P x)} (l : list A) :
  sum_list_with (λ x, if decide (P x) then 1 else 0) l = length (filter P l).
Proof.
  induction l as [|a l IH]; [done|]. simpl. rewrite filter_cons, IH.
  by case_decide.
Qed.

Lemma sum_list_with_ext {A} (f g : A → nat) (l : list A) :
  (∀ x, x ∈ l → f x = g x) → sum_list_with f l = sum_list_with g l.
Proof.
  induction l as [|a l IH]; [done|]. intros Hfg. simpl.
  rewrite Hfg, IH; [done| |].
  - intros x Hx. apply Hfg. by right.
  - by left.
Qed.

Lemma filter_fst_length {V} (P : string → Prop) `{!∀ x, Decision (P x)}
    (l : list (string * V)) :
  length (filter (λ item, P item.1) l) = length (filter P l.*1).
Proof.
  induction l as [|[k v] l IH]; [done|].
  rewrite fmap_cons, !filter_cons. simpl. case_decide; simpl; by rewrite IH.
Qed.

Section counting.
Context {so : Py.SetOrder}.

(** The names of a dictionary that holds the groups of [data] are the
    names of [data], each once. *)
Lemma keys_Permutation (data : list record) (d : gmap string record_org) :
  (∀ name, d !! name = name_group name data) →
  (map_to_list d).*1 ≡ₚ remove_dups (names_of data).
Proof.
  intros Hd. apply NoDup_Permutation;
    [apply NoDup_fst_map_to_list|apply NoDup_remove_dups|].
  intros n. rewrite elem_of_remove_dups, list_elem_of_fmap. split.
  - intros ([n' g] & -> & Hin%elem_of_map_to_list). simpl.
    rewrite Hd in Hin. unfold name_group in Hin. by case_decide.
  - intros Hin. eexists (n, _). split; [done|].
    apply elem_of_map_to_list. rewrite Hd. unfold name_group.
    by rewrite decide_True.
Qed.

Lemma assigned_names_Permutation (d : gmap string record_org) :
  assigned_names d ≡ₚ (map_to_list d).*1.
Proof. unfold assigned_names, written_items. by rewrite sorted_items_Permutation. Qed.

Lemma count_assigned_names (data : list record) (d : gmap string record_org) (n : string) :
  (∀ name, d !! name = name_group name data) →
  count n (assigned_names d) = if decide (n ∈ names_of data) then 1 else 0.
Proof.
  intros Hd.
  rewrite (count_Permutation _ _ _ (assigned_names_Permutation d)).
  rewrite (count_Permutation _ _ _ (keys_Permutation data d Hd)).
  rewrite count_NoDup by apply NoDup_remove_dups.
  destruct (decide (n ∈ names_of data)).
  - by rewrite decide_True by (by apply elem_of_remove_dups).
  - by rewrite decide_False by (by rewrite elem_of_remove_dups).
Qed.

Lemma count_written_shortcuts (g : record_org) (s : string) :
  count s (written_shortcuts g) = if decide (s ∈ shortcuts g) then 1 else 0.
Proof.
  rewrite written_shortcuts_eq. unfold sorted_set.
  rewrite (count_Permutation _ _ _ (sorted_Permutation _)).
  rewrite count_NoDup by apply NoDup_remove_dups.
  destruct (decide (s ∈ shortcuts g)).
  - by rewrite decide_True by (by apply elem_of_remove_dups).
  - by rewrite decide_False by (by rewrite elem_of_remove_dups).
Qed.

Lemma count_assigned_shortcuts (data : list record) (d : gmap string record_org)
    (s : string) :
  (∀ name, d !! name = name_group name data) →
  count s (assigned_shortcuts d)
  = length (filter (λ name, s ∈ shortcuts_in name data) (remove_dups (names_of data))).
Proof.
  intros Hd. unfold assigned_shortcuts. rewrite count_bind.
  rewrite (sum_list_with_ext _
             (λ item, if decide (s ∈ shortcuts_in item.1 data) then 1 else 0)).
  - rewrite (sum_indicator (λ item : string * record_org, s ∈ shortcuts_in item.1 data)).
    etrans;
      [exact (filter_fst_length (λ name, s ∈ shortcuts_in name data) (written_items d))|].
    fold (assigned_names d).
    by rewrite assigned_names_Permutation, (keys_Permutation data d Hd).
  - intros [n g] Hin. rewrite count_written_shortcuts. simpl.
    unfold written_items in Hin. rewrite sorted_items_Permutation in Hin.
    apply elem_of_map_to_list in Hin. rewrite Hd in Hin.
    unfold name_group in Hin. case_decide; [|done]. by injection Hin as <-.
Qed.
End counting.

(** ** Independence of the order of the input *)

Lemma names_of_Permutation (d1 d2 : list record) : d1 ≡ₚ d2 → names_of d1 ≡ₚ names_of d2.
Proof. intros Hp. unfold names_of. by rewrite Hp. Qed.

Lemma shortcuts_in_Permutation (name : string) (d1 d2 : list record) :
  d1 ≡ₚ d2 → shortcuts_in name d1 ≡ₚ shortcuts_in name d2.
Proof. intros Hp. unfold shortcuts_in. by rewrite Hp. Qed.

Lemma descriptions_in_names (name : string) (d1 d2 : list record) :
  d1 ≡ₚ d2 → name ∈ names_of d1 ↔ name ∈ names_of d2.
Proof. intros Hp. by rewrite (names_of_Permutation d1 d2). Qed.

Section order.
Context {ws : TextWrap.WordSplit}.

Lemma item_lines_normal {so : Py.SetOrder} (item : string * record_org) :
  item_lines item = item_block (prod_map id normal item).
Proof. destruct item as [n g]. by rewrite item_lines_eq. Qed.

Lemma written_items_normal (d : gmap string record_org) :
  prod_map id normal <$> written_items d = written_items (normal <$> d).
Proof.
  unfold written_items.
  rewrite sorted_items_fmap by apply NoDup_fst_map_to_list.
  by rewrite map_to_list_fmap.
Qed.

(** The lines depend on the dictionary through the descriptions and
    the sets of shortcuts of its names only, and not on the order of
    the sets. *)
Lemma rendered_lines_normal (so1 so2 : Py.SetOrder) (d1 d2 : gmap string record_org) :
  normal <$> d1 = normal <$> d2 →
  rendered_lines (so:=so1) d1 = rendered_lines (so:=so2) d2.
Proof.
  intros Hn. unfold rendered_lines. do 2 f_equal.
  assert (∀ so d, written_items d ≫= item_lines (so:=so)
                  = written_items (normal <$> d) ≫= item_block) as Hb.
  { intros so d. rewrite <-written_items_normal.
    induction (written_items d) as [|item l IH]; [done|].
    rewrite fmap_cons, !bind_cons, IH. by rewrite item_lines_normal. }
  by rewrite !Hb, Hn.
Qed.

Lemma process_returns {so : Py.SetOrder} (data : list record) (w : world) :
  Forall well_formed data →
  ∃ st, organize organized_init data = inr st
    ∧ _process data w
      = Returned (World (Some (write_names (data_organized st)))
                   (_print_duplicates (all_shortcuts st)
                      (_print_duplicates (all_names st) (stderr w)))).
Proof.
  intros Hwf. destruct (organize_groups data Hwf) as (st & Ho & _).
  exists st. split; [done|]. unfold _process. by rewrite Ho.
Qed.

Lemma process_raises {so : Py.SetOrder} (data : list record) (w : world) :
  ¬ Forall well_formed data → ∃ e, _process data w = Raised e w.
Proof.
  intros Hn. destruct (organize_raises data organized_init Hn) as [e He].
  exists e. unfold _process. by rewrite He.
Qed.

(** C1, amended: the file written is the same for two inputs that are
    permutations of each other and in which every name has its
    non-empty descriptions in the same order, whatever the order in
    which the sets of shortcuts are iterated in the two runs. *)
Theorem names_py_order_independent (so1 so2 : Py.SetOrder)
    (d1 d2 : list record) (w : world) :
  d1 ≡ₚ d2 →
  (∀ name, descriptions_in name d1 = descriptions_in name d2) →
  file_after (so:=so1) d1 w = file_after (so:=so2) d2 w.
Proof.
  intros Hp Hdesc. unfold file_after.
  destruct (decide (Forall well_formed d1)) as [Hwf1|Hn1].
  - assert (Forall well_formed d2) as Hwf2 by (by rewrite <-Hp).
    destruct (organize_groups d1 Hwf1) as (st1 & Ho1 & _ & Hg1).
    destruct (organize_groups d2 Hwf2) as (st2 & Ho2 & _ & Hg2).
    unfold _process. rewrite Ho1, Ho2. simpl. f_equal.
    rewrite !write_names_text. f_equal. apply rendered_lines_normal.
    apply map_eq. intros name. rewrite !lookup_fmap, Hg1, Hg2.
    unfold name_group.
    destruct (decide (name ∈ names_of d1)) as [Hin|Hin].
    + rewrite decide_True by (by rewrite <-(names_of_Permutation d1 d2)).
      simpl. unfold normal. simpl. f_equal. f_equal; [|done].
      by apply sorted_set_perm, shortcuts_in_Permutation.
    + by rewrite decide_False by (by rewrite <-(names_of_Permutation d1 d2)).
  - assert (¬ Forall well_formed d2) as Hn2 by (by rewrite <-Hp).
    destruct (process_raises (so:=so1) d1 w Hn1) as [e1 ->].
    destruct (process_raises (so:=so2) d2 w Hn2) as [e2 ->]. done.
Qed.
End order.

Lemma names_py_order_independent_witness :
  file_after (so:=Py.first_seen_order) (ws:=TextWrap.split_plain) two_names old_world
  = file_after (so:=Py.reverse_order) (ws:=TextWrap.split_plain) two_names_swapped old_world.
Proof.
  apply (names_py_order_independent Py.first_seen_order Py.reverse_order
           two_names two_names_swapped old_world).
  - apply perm_swap.
  - intros name. unfold descriptions_in, two_names, two_names_swapped. simpl.
    repeat case_decide; simplify_eq; reflexivity.
Defined.

(** C1, as stated, fails: the two definitions of one name in the other
    order give another text, as their descriptions are numbered in the
    order of the input. *)
Lemma descriptions_follow_input_order :
  close_data ≡ₚ reverse close_data
  ∧ file_after (so:=Py.first_seen_order) (ws:=TextWrap.split_plain) close_data old_world
    ≠ file_after (so:=Py.first_seen_order) (ws:=TextWrap.split_plain)
        (reverse close_data) old_world.
Proof.
  split; [apply perm_swap|].
  vm_compute. discriminate.
Qed.

(** ** The groups and the lines written for them *)

(** C3: when every record has a name and shortcuts, the loop ends with a
    dictionary that holds, for every name of the input, one group: its
    shortcuts are the shortcut lists of the records of that name,
    concatenated, and its descriptions are the non-empty descriptions of
    those records, in the order of the input; other names have no
    group. *)
Theorem organize_name_groups (data : list record) :
  Forall well_formed data →
  ∃ st, organize organized_init data = inr st
    ∧ ∀ name, data_organized st !! name =
        if decide (name ∈ names_of data)
        then Some (RecordOrg (shortcuts_in name data) (descriptions_in name data))
        else None.
Proof.
  intros Hwf. destruct (organize_groups data Hwf) as (st & Ho & _ & Hg). eauto.
Qed.

Lemma organize_name_groups_witness :
  ∃ st, organize organized_init close_data = inr st
    ∧ ∀ name, data_organized st !! name =
        if decide (name ∈ names_of close_data)
        then Some (RecordOrg (shortcuts_in name close_data)
                     (descriptions_in name close_data))
        else None.
Proof.
  apply (organize_name_groups close_data).
  repeat constructor; by eexists.
Defined.

Example close_group :
  name_group "Close" close_data
  = Some (RecordOrg ["CLOSE"; "SHARE_PRICE"; "SHARE_PRICE"] ["Price at close"; "Alt def"]).
Proof. reflexivity. Qed.

Section generated.
Context {so : Py.SetOrder} {ws : TextWrap.WordSplit}.

(** C4: when a record of the input has no name, [_process] raises and
    leaves the world as it was: names.py is neither created nor
    changed. A record without description is organized as one whose
    description is empty, and does not raise. *)
Theorem missing_name_raises (data : list record) (r : record) (w : world) :
  r ∈ data → r_name r = None →
  (∃ e, _process data w = Raised e w)
  ∧ ∀ st name scs, ∃ st',
      organize_record st (mk_record (Some name) (Some scs) None) = inr st'
      ∧ organize_record st (mk_record (Some name) (Some scs) (Some "")) = inr st'.
Proof.
  intros Hin Hname. split.
  - apply process_raises. intros Hwf.
    eapply Forall_forall in Hwf as [[name Hsome] _]; [|done]. congruence.
  - intros st name scs. by eexists.
Qed.

(** C10: when a record of the input has no shortcuts, [_process] raises
    and leaves the world as it was. *)
Theorem missing_shortcuts_raises (data : list record) (r : record) (w : world) :
  r ∈ data → r_shortcuts r = None → ∃ e, _process data w = Raised e w.
Proof.
  intros Hin Hscs. apply process_raises. intros Hwf.
  eapply Forall_forall in Hwf as [_ [scs Hsome]]; [|done]. congruence.
Qed.

(** C6: the file is the header, the lines of the items and the
    separator, and the items are written with their names in strictly
    ascending order of character codes. *)
Theorem names_ascending (d : gmap string record_org) :
  write_names d = unlines ([_header] ++ (written_items d ≫= item_lines) ++ [_separator])
  ∧ ascending (written_items d).*1.
Proof.
  split; [apply write_names_text|].
  apply sorted_items_ascending, NoDup_fst_map_to_list.
Qed.

(** C7: what is written for an item is its description lines, then one
    line made of the shortcuts of its group as a set, sorted strictly
    ascending (the same strings as in the group, each once), every
    shortcut followed by [" = "], then the name in single quotes, then a
    blank line; without shortcuts the line is the quoted name. *)
Theorem assignment_line_written (file name : string) (g : record_org) :
  write_item file (name, g)
  = file +:+ unlines (desc_lines (descriptions g)
                       ++ [assignment_line name (sorted_set (shortcuts g)); ""])
  ∧ assignment_line name (sorted_set (shortcuts g))
    = Py.join ((λ s, s +:+ " = ") <$> Py.sorted (remove_dups (shortcuts g)))
        +:+ "'" +:+ name +:+ "'"
  ∧ ascending (sorted_set (shortcuts g))
  ∧ (∀ s, s ∈ sorted_set (shortcuts g) ↔ s ∈ shortcuts g)
  ∧ assignment_line name [] = "'" +:+ name +:+ "'".
Proof.
  split_and!.
  - by rewrite write_item_text, item_lines_eq.
  - done.
  - apply sorted_set_ascending.
  - apply elem_of_sorted_set.
  - done.
Qed.

(** C5, amended: when every record has a name and shortcuts, every name
    of the input is the name of exactly one assignment line, and a
    shortcut is written exactly once on the line of every name that
    has it in one of its records: in the whole file as many times as
    there are different names with that shortcut, so exactly once
    when one name only has it. *)
Theorem names_and_shortcuts_written (data : list record) :
  Forall well_formed data →
  ∃ st, organize organized_init data = inr st
    ∧ (∀ name, count name (assigned_names (data_organized st))
               = if decide (name ∈ names_of data) then 1 else 0)
    ∧ (∀ s, count s (assigned_shortcuts (data_organized st))
            = length (filter (λ name, s ∈ shortcuts_in name data)
                        (remove_dups (names_of data)))).
Proof.
  intros Hwf. destruct (organize_groups data Hwf) as (st & Ho & _ & Hg).
  exists st. split_and!; [done|..].
  - intros name. by apply count_assigned_names.
  - intros s. by apply count_assigned_shortcuts.
Qed.
End generated.

Lemma missing_name_raises_witness :
  (∃ e, _process (so:=Py.first_seen_order) (ws:=TextWrap.split_plain) nameless old_world
        = Raised e old_world)
  ∧ ∀ st name scs, ∃ st',
      organize_record st (mk_record (Some name) (Some scs) None) = inr st'
      ∧ organize_record st (mk_record (Some name) (Some scs) (Some "")) = inr st'.
Proof.
  apply (missing_name_raises (so:=Py.first_seen_order) (ws:=TextWrap.split_plain)
           nameless (mk_record None (Some ["OPEN"]) (Some "Price at open")) old_world).
  - right. left.
  - reflexivity.
Defined.

Lemma missing_shortcuts_raises_witness :
  ∃ e, _process (so:=Py.first_seen_order) (ws:=TextWrap.split_plain) no_shortcuts old_world
       = Raised e old_world.
Proof.
  apply (missing_shortcuts_raises (so:=Py.first_seen_order) (ws:=TextWrap.split_plain)
           no_shortcuts (mk_record (Some "Close") None (Some "Price at close")) old_world).
  - left.
  - reflexivity.
Defined.

Lemma names_and_shortcuts_written_witness :
  ∃ st, organize organized_init close_data = inr st
    ∧ (∀ name, count name (assigned_names (data_organized st))
               = if decide (name ∈ names_of close_data) then 1 else 0)
    ∧ (∀ s, count s (assigned_shortcuts (so:=Py.first_seen_order) (data_organized st))
            = length (filter (λ name, s ∈ shortcuts_in name close_data)
                        (remove_dups (names_of close_data)))).
Proof.
  apply (names_and_shortcuts_written (so:=Py.first_seen_order) close_data).
  repeat constructor; by eexists.
Defined.

(** C5, as stated, fails: a shortcut that two names have is written on
    the lines of both. *)
Lemma shared_shortcut_written_twice :
  ∃ st, organize organized_init shared_shortcut = inr st
    ∧ rendered_lines (so:=Py.first_seen_order) (ws:=TextWrap.split_plain) (data_organized st)
      = [_header; "X = 'A'"; ""; "X = 'B'"; ""; _separator]
    ∧ count "X" (assigned_shortcuts (so:=Py.first_seen_order) (data_organized st)) = 2
    ∧ count "X" (assigned_shortcuts (so:=Py.first_seen_order) (data_organized st)) ≠ 1.
Proof.
  eexists. split; [reflexivity|]. split_and!; [by vm_compute..|].
  vm_compute. discriminate.
Qed.

(** The example of the specification: two definitions of "Close". *)
Example close_rendered :
  ∃ st, organize organized_init close_data = inr st
    ∧ rendered_lines (so:=Py.reverse_order) (ws:=TextWrap.split_plain) (data_organized st)
      = [_header; "# (1) Price at close (2) Alt def"; "CLOSE = SHARE_PRICE = 'Close'"; "";
         _separator].
Proof. eexists. split; [reflexivity|]. by vm_compute. Qed.

(** The text that raised runs leave is the old one. *)
Example nameless_keeps_file :
  file_after (so:=Py.first_seen_order) (ws:=TextWrap.split_plain) nameless old_world
  = Some "old".
Proof. reflexivity. Qed.

(** * Further properties *)

(** ** More on the duplicates *)

Lemma seen_again_snoc (seen x : list string) (a : string) :
  seen_again seen (x ++ [a])
  = seen_again seen x ++ (if decide (a ∈ seen ++ x) then [a] else []).
Proof.
  revert seen. induction x as [|b x IH]; intros seen; simpl.
  - rewrite app_nil_r. by case_decide.
  - rewrite IH, <-app_assoc. simpl. by case_decide.
Qed.

Lemma seen_again_sublist (seen x : list string) : sublist (seen_again seen x) x.
Proof.
  revert seen. induction x as [|b x IH]; intros seen; simpl; [done|].
  case_decide; [by apply sublist_skip|by apply sublist_cons].
Qed.

Lemma seen_again_nil_iff (x : list string) : seen_again [] x = [] ↔ NoDup x.
Proof.
  induction x as [|a x IH] using rev_ind; [by split; [constructor|]|].
  rewrite seen_again_snoc, NoDup_app. simpl.
  case_decide as Ha; split.
  - intros [_ [=]]%app_nil.
  - intros (_ & Hd & _). destruct (Hd a Ha). by left.
  - rewrite app_nil_r. intros Hx%IH. split_and!; [done| |apply NoDup_singleton].
    intros y Hy ->%list_elem_of_singleton. done.
  - intros (Hx%IH & _). by rewrite Hx.
Qed.

Lemma remove_dups_snoc_length (x : list string) (a : string) :
  length (remove_dups (x ++ [a]))
  = length (remove_dups x) + (if decide (a ∈ x) then 0 else 1).
Proof.
  case_decide as Ha.
  - rewrite Nat.add_0_r. apply Permutation_length, NoDup_Permutation;
      [apply NoDup_remove_dups..|].
    intros y. rewrite !elem_of_remove_dups, elem_of_app, list_elem_of_singleton.
    intuition (subst; auto).
  - rewrite Nat.add_1_r. change (S (length (remove_dups x))) with (length (a :: remove_dups x)).
    apply Permutation_length, NoDup_Permutation; [apply NoDup_remove_dups| |].
    + constructor; [by rewrite elem_of_remove_dups|apply NoDup_remove_dups].
    + intros y. rewrite elem_of_cons, !elem_of_remove_dups, elem_of_app,
        list_elem_of_singleton. tauto.
Qed.

Lemma seen_again_length (x : list string) :
  length (seen_again [] x) + length (remove_dups x) = length x.
Proof.
  induction x as [|a x IH] using rev_ind; [done|].
  rewrite seen_again_snoc, remove_dups_snoc_length, !length_app. simpl.
  case_decide; simpl; lia.
Qed.

(** X1: a value appended to the list is appended to the duplicates
    exactly when it occurs in the list already; with the empty result
    for the empty list this gives every duplicate, in the order of the
    input. *)
Theorem get_duplicates_snoc (x : list string) (a : string) :
  _get_duplicates (x ++ [a]) = _get_duplicates x ++ (if decide (a ∈ x) then [a] else []).
Proof. rewrite !get_duplicates_seen_again. apply seen_again_snoc. Qed.

(** X2: there are no duplicates exactly when the elements of the list
    are pairwise different. *)
Theorem get_duplicates_empty_iff (x : list string) : _get_duplicates x = [] ↔ NoDup x.
Proof. rewrite get_duplicates_seen_again. apply seen_again_nil_iff. Qed.

(** X3: the duplicates and the distinct values together are as many
    as the elements of the list. *)
Theorem get_duplicates_length (x : list string) :
  length (_get_duplicates x) + length (remove_dups x) = length x.
Proof. rewrite get_duplicates_seen_again. apply seen_again_length. Qed.

(** X4: the duplicates come in the order of the input: they are a
    sublist of it. *)
Theorem get_duplicates_sublist (x : list string) : sublist (_get_duplicates x) x.
Proof. rewrite get_duplicates_seen_again. apply seen_again_sublist. Qed.

(** ** The report of the duplicates *)

Lemma get_duplicates_length_sub (x : list string) :
  length (_get_duplicates x) = length x - length (remove_dups x).
Proof. rewrite get_duplicates_seen_again. pose proof (seen_again_length x). lia. Qed.

Lemma print_duplicates_text (x : list string) (err : string) :
  _print_duplicates x err
  = if decide (NoDup x) then err else err +:+ unlines (duplicates_report x).
Proof.
  unfold _print_duplicates.
  destruct (decide (NoDup x)) as [Hnd|Hnd].
  - apply seen_again_nil_iff in Hnd. by rewrite get_duplicates_seen_again, Hnd.
  - rewrite decide_True.
    + rewrite (foldl_print (λ dup, "- " +:+ dup)). unfold Py.print, duplicates_report.
      rewrite get_duplicates_length_sub.
      change (unlines (?a :: ?l)) with ((a +:+ Py.nl) +:+ unlines l).
      rewrite unlines_app. unfold unlines at 2. simpl.
      unfold unlines. rewrite <-list_fmap_compose.
      by rewrite !str_app_assoc, !str_app_nil_l, ?str_app_nil_r.
    + destruct (_get_duplicates x) eqn:Hd; [|simpl; lia].
      rewrite get_duplicates_seen_again in Hd. by apply seen_again_nil_iff in Hd.
Qed.

Lemma unlines_cons_length (a : string) (l : list string) :
  0 < String.length (unlines (a :: l)).
Proof.
  change (unlines (a :: l)) with ((a +:+ Py.nl) +:+ unlines l).
  rewrite !str_length_app. simpl. lia.
Qed.

Lemma print_duplicates_length (x : list string) (err : string) :
  String.length err ≤ String.length (_print_duplicates x err)
  ∧ (String.length (_print_duplicates x err) = String.length err ↔ NoDup x).
Proof.
  rewrite print_duplicates_text. case_decide as Hnd; [by split|].
  rewrite str_length_app. pose proof (unlines_cons_length
    ("Duplicates: " +:+ Py.format_nat (length x - length (remove_dups x)))
    (((λ dup, "- " +:+ dup) <$> _get_duplicates x) ++ [""])) as Hpos.
  fold (duplicates_report x) in Hpos. split; [lia|]. split; [lia|done].
Qed.

Lemma print_duplicates_silent (x : list string) (err : string) :
  NoDup x → _print_duplicates x err = err.
Proof. intros Hnd. rewrite print_duplicates_text. by rewrite decide_True. Qed.

(** X5: [_print_duplicates] leaves stderr as it is exactly when the
    elements of the list are pairwise different. *)
Theorem print_duplicates_silent_iff (x : list string) (err : string) :
  _print_duplicates x err = err ↔ NoDup x.
Proof.
  split.
  - intros Heq. apply (print_duplicates_length x err). by rewrite Heq.
  - apply print_duplicates_silent.
Qed.

(** X6: for a list with duplicates [_print_duplicates] appends to
    stderr a header line with the number of duplicates, which is the
    number of elements less the number of distinct values, then one line
    ["- "] and the value for every duplicate, then an empty line. *)
Theorem print_duplicates_report (x : list string) (err : string) :
  ¬ NoDup x →
  _print_duplicates x err
  = err +:+ unlines (("Duplicates: " +:+ Py.format_nat (length x - length (remove_dups x)))
                       :: ((λ dup, "- " +:+ dup) <$> _get_duplicates x) ++ [""]).
Proof. intros Hnd. rewrite print_duplicates_text. by rewrite decide_False. Qed.

Lemma print_duplicates_report_witness :
  _print_duplicates ["A"; "A"; "B"] "log"
  = "log" +:+ unlines (("Duplicates: "
                          +:+ Py.format_nat (length ["A"; "A"; "B"]
                                             - length (remove_dups ["A"; "A"; "B"])))
                         :: ((λ dup, "- " +:+ dup) <$> _get_duplicates ["A"; "A"; "B"]) ++ [""]).
Proof.
  apply (print_duplicates_report ["A"; "A"; "B"] "log").
  intros Hnd. apply NoDup_cons in Hnd as [Hin _]. apply Hin. left.
Defined.




(** ** Runs of [_process] *)

Lemma organize_app (d1 d2 : list record) (st : organized) :
  organize st (d1 ++ d2)
  = match organize st d1 with inl e => inl e | inr st' => organize st' d2 end.
Proof.
  revert st. induction d1 as [|r d1 IH]; intros st; simpl; [done|].
  destruct (organize_record st r); [done|]. apply IH.
Qed.

Lemma organize_record_bad (st : organized) (r : record) :
  ¬ well_formed r → organize_record st r = inl (KeyError (missing_key r)).
Proof.
  intros Hn. unfold organize_record, missing_key.
  destruct (r_name r) as [name|] eqn:Hname; [|done].
  destruct (r_shortcuts r) as [scs|] eqn:Hscs; [|done].
  destruct Hn. split; [by rewrite Hname|by rewrite Hscs].
Qed.

Section runs.
Context {so : Py.SetOrder} {ws : TextWrap.WordSplit}.

(** X7: the first record that lacks a name or the shortcuts decides the
    exception: [KeyError] of ["name"] when its name is missing (also
    when its shortcuts are missing too), of ["shortcuts"] otherwise;
    the records after it play no part, and the world is left as it
    was. *)
Theorem process_first_bad_record (good rest : list record) (r : record) (w : world) :
  Forall well_formed good → ¬ well_formed r →
  _process (good ++ r :: rest) w = Raised (KeyError (missing_key r)) w.
Proof.
  intros Hgood Hbad. unfold _process. rewrite organize_app.
  destruct (organize_spec good organized_init Hgood) as (st & -> & _).
  simpl. by rewrite organize_record_bad.
Qed.

(** X8: [_process] returns, rather than raises, exactly when every
    record has a name and shortcuts. *)
Theorem process_returns_iff (data : list record) (w : world) :
  (∃ w', _process data w = Returned w') ↔ Forall well_formed data.
Proof.
  split.
  - intros [w' Hret]. destruct (decide (Forall well_formed data)) as [|Hn]; [done|].
    destruct (process_raises data w Hn) as [e He]. congruence.
  - intros Hwf. destruct (process_returns data w Hwf) as (st & _ & ->). by eexists.
Qed.

Lemma written_names_sorted (data : list record) (d : gmap string record_org) :
  (∀ name, d !! name = name_group name data) →
  (written_items d).*1 = Py.sorted (remove_dups (names_of data)).
Proof.
  intros Hd. apply (Sorted_unique String.le).
  - apply Sorted.StronglySorted_Sorted, StronglySorted_fst.
    apply Sorted_StronglySorted; [apply _|]. apply (Sorted_merge_sort _).
  - apply sorted_Sorted.
  - fold (assigned_names d).
    by rewrite assigned_names_Permutation, (keys_Permutation data d Hd), sorted_Permutation.
Qed.

Lemma written_items_lines (data : list record) (d : gmap string record_org) :
  (∀ name, d !! name = name_group name data) →
  written_items d ≫= item_lines = (written_items d).*1 ≫= name_lines data.
Proof.
  intros Hd.
  assert (∀ item, item ∈ written_items d → item_lines item = name_lines data item.1) as Hl.
  { intros [n g] Hin. unfold written_items in Hin.
    rewrite sorted_items_Permutation in Hin. apply elem_of_map_to_list in Hin.
    rewrite Hd in Hin. unfold name_group in Hin. case_decide; [|done].
    injection Hin as <-. by rewrite item_lines_eq. }
  induction (written_items d) as [|item l IH]; [done|].
  rewrite fmap_cons, !bind_cons, Hl, IH; [done| |by left].
  intros item' Hin. apply Hl. by right.
Qed.

(** The text written for the dictionary of the groups of [data]. *)
Lemma write_names_groups (data : list record) (d : gmap string record_org) :
  (∀ name, d !! name = name_group name data) →
  write_names d
  = unlines ([_header]
               ++ (Py.sorted (remove_dups (names_of data)) ≫= name_lines data)
               ++ [_separator]).
Proof.
  intros Hd. rewrite write_names_text. unfold rendered_lines.
  by rewrite (written_items_lines data), (written_names_sorted data).
Qed.

(** X9: when every record has a name and shortcuts, names.py is, after
    the run and whatever it held before, the header, then for every
    distinct name of the input, in sorted order, the wrapped lines of
    its non-empty descriptions, its assignment line with the sorted set
    of its shortcuts and a blank line, then the separator. *)
Theorem process_file (data : list record) (w : world) :
  Forall well_formed data →
  file_after data w
  = Some (unlines ([_header]
                     ++ (Py.sorted (remove_dups (names_of data)) ≫= name_lines data)
                     ++ [_separator])).
Proof.
  intros Hwf. unfold file_after.
  destruct (organize_groups data Hwf) as (st & Ho & _ & Hg).
  unfold _process. rewrite Ho. simpl. f_equal.
  by apply write_names_groups.
Qed.

Lemma process_stderr_eq (data : list record) (w : world) :
  Forall well_formed data →
  stderr (world_of (_process data w))
  = _print_duplicates (shortcuts_of data) (_print_duplicates (names_of data) (stderr w)).
Proof.
  intros Hwf. destruct (organize_spec data organized_init Hwf) as (st & Ho & Hn & Hs & _).
  unfold _process. rewrite Ho. simpl. by rewrite Hn, Hs.
Qed.

(** X10: when every record has a name and shortcuts, the run adds to
    stderr the report on the names of the records and then the report
    on all their shortcuts; stderr is left as it was exactly when no
    two records have the same name and no shortcut occurs twice in the
    whole input, be it for one name. *)
Theorem process_stderr (data : list record) (w : world) :
  Forall well_formed data →
  stderr (world_of (_process data w))
  = _print_duplicates (shortcuts_of data) (_print_duplicates (names_of data) (stderr w))
  ∧ (stderr (world_of (_process data w)) = stderr w
     ↔ NoDup (names_of data) ∧ NoDup (shortcuts_of data)).
Proof.
  intros Hwf. rewrite process_stderr_eq by done. split; [done|].
  set (err1 := _print_duplicates (names_of data) (stderr w)).
  destruct (print_duplicates_length (names_of data) (stderr w)) as [Hle1 Heq1].
  destruct (print_duplicates_length (shortcuts_of data) err1) as [Hle2 Heq2].
  fold err1 in Hle1, Heq1. split.
  - intros Heq. apply (f_equal String.length) in Heq.
    split; [apply Heq1|apply Heq2]; lia.
  - intros [Hn Hs]. unfold err1.
    by rewrite !print_duplicates_silent.
Qed.
End runs.

Lemma process_first_bad_record_witness :
  _process (so:=Py.first_seen_order) (ws:=TextWrap.split_plain)
    ([mk_record (Some "Close") (Some ["CLOSE"]) None]
       ++ mk_record None None None :: [mk_record (Some "Open") None None]) old_world
  = Raised (KeyError (missing_key (mk_record None None None))) old_world.
Proof.
  apply (process_first_bad_record (so:=Py.first_seen_order) (ws:=TextWrap.split_plain)
           [mk_record (Some "Close") (Some ["CLOSE"]) None]
           [mk_record (Some "Open") None None] (mk_record None None None) old_world).
  - repeat constructor; by eexists.
  - intros [[name Hname] _]. discriminate Hname.
Defined.

Lemma process_file_witness :
  file_after (so:=Py.first_seen_order) (ws:=TextWrap.split_plain) close_data old_world
  = Some (unlines ([_header]
                     ++ (Py.sorted (remove_dups (names_of close_data))
                           ≫= name_lines (ws:=TextWrap.split_plain) close_data)
                     ++ [_separator])).
Proof.
  apply (process_file (so:=Py.first_seen_order) (ws:=TextWrap.split_plain)
           close_data old_world).
  repeat constructor; by eexists.
Defined.

Lemma process_stderr_witness :
  stderr (world_of (_process (so:=Py.first_seen_order) (ws:=TextWrap.split_plain)
                      close_data old_world))
  = _print_duplicates (shortcuts_of close_data)
      (_print_duplicates (names_of close_data) (stderr old_world))
  ∧ (stderr (world_of (_process (so:=Py.first_seen_order) (ws:=TextWrap.split_plain)
                         close_data old_world))
     = stderr old_world
     ↔ NoDup (names_of close_data) ∧ NoDup (shortcuts_of close_data)).
Proof.
  apply (process_stderr (so:=Py.first_seen_order) (ws:=TextWrap.split_plain)
           close_data old_world).
  repeat constructor; by eexists.
Defined.

(** The report on the two definitions of "Close". *)
Example close_stderr :
  stderr (world_of (_process (so:=Py.first_seen_order) (ws:=TextWrap.split_plain)
                      close_data old_world))
  = unlines ["Duplicates: 1"; "- Close"; ""; "Duplicates: 1"; "- SHARE_PRICE"; ""].
Proof. by vm_compute. Qed.


Lemma sorted_set_elem_of_eq (l1 l2 : list string) :
  (∀ s, s ∈ l1 ↔ s ∈ l2) → sorted_set l1 = sorted_set l2.
Proof.
  intros Hel. apply sorted_perm_eq, NoDup_Permutation; [apply NoDup_remove_dups..|].
  intros s. by rewrite !elem_of_remove_dups.
Qed.

Lemma sorted_elem_of_eq (l1 l2 : list string) :
  (∀ s, s ∈ l1 ↔ s ∈ l2) → Py.sorted (remove_dups l1) = Py.sorted (remove_dups l2).
Proof. apply sorted_set_elem_of_eq. Qed.

Lemma bind_ext_elem_of {A B} (f g : A → list B) (l : list A) :
  (∀ x, x ∈ l → f x = g x) → l ≫= f = l ≫= g.
Proof.
  induction l as [|a l IH]; intros Hfg; [done|].
  rewrite !bind_cons, Hfg, IH; [done| |by left].
  intros x Hx. apply Hfg. by right.
Qed.

(** X11: two inputs whose records all have a name and shortcuts give
    the same names.py when they have the same names and, for every
    name, the same set of shortcuts and the same sequence of non-empty
    descriptions, whatever the number and order of their records and
    the order of the sets. *)
Theorem file_depends_on_groups (so1 so2 : Py.SetOrder) {ws : TextWrap.WordSplit}
    (d1 d2 : list record) (w1 w2 : world) :
  Forall well_formed d1 → Forall well_formed d2 →
  (∀ name, name ∈ names_of d1 ↔ name ∈ names_of d2) →
  (∀ name s, s ∈ shortcuts_in name d1 ↔ s ∈ shortcuts_in name d2) →
  (∀ name, descriptions_in name d1 = descriptions_in name d2) →
  file_after (so:=so1) d1 w1 = file_after (so:=so2) d2 w2.
Proof.
  intros Hwf1 Hwf2 Hnames Hscs Hdescs. unfold file_after.
  destruct (organize_groups d1 Hwf1) as (st1 & Ho1 & _ & Hg1).
  destruct (organize_groups d2 Hwf2) as (st2 & Ho2 & _ & Hg2).
  unfold _process. rewrite Ho1, Ho2. simpl. f_equal.
  rewrite (write_names_groups (so:=so1) d1), (write_names_groups (so:=so2) d2) by done.
  rewrite (sorted_elem_of_eq _ _ Hnames).
  rewrite (bind_ext_elem_of (name_lines d1) (name_lines d2)); [done|].
  intros name _. unfold name_lines.
  by rewrite Hdescs, (sorted_set_elem_of_eq _ _ (Hscs name)).
Qed.

Lemma file_depends_on_groups_witness :
  file_after (so:=Py.first_seen_order) (ws:=TextWrap.split_plain) close_data old_world
  = file_after (so:=Py.reverse_order) (ws:=TextWrap.split_plain) close_data_respread
      (World None "").
Proof.
  apply (file_depends_on_groups Py.first_seen_order Py.reverse_order
           (ws:=TextWrap.split_plain) close_data close_data_respread old_world (World None "")).
  - repeat constructor; by eexists.
  - repeat constructor; by eexists.
  - intros name. unfold names_of, close_data, close_data_respread. simpl. reflexivity.
  - intros name s. unfold shortcuts_in, close_data, close_data_respread. simpl.
    case_decide; [|reflexivity]. simpl.
    rewrite !elem_of_cons, !elem_of_nil. tauto.
  - intros name. unfold descriptions_in, close_data, close_data_respread. simpl.
    case_decide; reflexivity.
Defined.



(** ** What wrapping keeps *)

Section keeping.
Import TextWrap.

Lemma ink_app (a b : string) : ink (a +:+ b) = ink a ++ ink b.
Proof.
  induction a as [|c a IH]; [done|].
  rewrite str_app_cons. cbn [ink]. destruct (Py.isspace c); rewrite IH; reflexivity.
Qed.

Lemma ink_join_app (l1 l2 : list string) :
  ink (Py.join (l1 ++ l2)) = ink (Py.join l1) ++ ink (Py.join l2).
Proof. by rewrite join_app, ink_app. Qed.

Lemma ink_lstrip (s : string) : ink (Py.lstrip s) = ink s.
Proof.
  induction s as [|c s IH]; [done|]. cbn [Py.lstrip].
  destruct (Py.isspace c) eqn:Hc; cbn [ink]; by rewrite Hc.
Qed.

Lemma ink_rstrip (s : string) : ink (Py.rstrip s) = ink s.
Proof.
  induction s as [|c s IH]; [done|]. cbn [Py.rstrip ink].
  destruct (Py.rstrip s) as [|d t] eqn:Ht.
  - rewrite <-IH. destruct (Py.isspace c) eqn:Hc; cbn [ink]; by rewrite ?Hc.
  - rewrite <-IH. set (u := String d t). cbn [ink]. done.
Qed.

(** A chunk that [strip] empties is whitespace. *)
Lemma ink_blank (c : string) : Py.strip c = "" → ink c = [].
Proof.
  intros Hc. rewrite <-(ink_lstrip c), <-(ink_rstrip (Py.lstrip c)).
  fold (Py.strip c). by rewrite Hc.
Qed.

Lemma str_take_drop (n : nat) (s : string) : str_take n s +:+ str_drop n s = s.
Proof.
  revert s. induction n as [|n IH]; intros [|c s]; simpl; [done..|].
  by rewrite str_app_cons, IH.
Qed.

Lemma ink_removelast (l : list string) (c : string) :
  last l = Some c → Py.strip c = "" → ink (Py.join (removelast l)) = ink (Py.join l).
Proof.
  intros [l' ->]%last_Some Hc.
  rewrite removelast_last, ink_join_app. simpl.
  by rewrite str_app_nil_r, (ink_blank c Hc), app_nil_r.
Qed.

(** One pass of the outer loop adds at most one line, and the line and
    the chunks left have the ink of the chunks before. *)
Lemma wrap_line_ink (w : TextWrapper) (lines chunks lines' chunks' : list string) :
  wrap_line w lines chunks = (lines', chunks') →
  ∃ cur_line,
    lines' = lines ++ (if cur_line is [] then []
                       else [indent_of w (length lines) +:+ Py.join cur_line])
    ∧ ink (Py.join cur_line) ++ ink (Py.join chunks') = ink (Py.join chunks).
Proof.
  unfold wrap_line.
  assert ((if lines is [] then initial_indent w else subsequent_indent w)
          = indent_of w (length lines)) as -> by (by destruct lines).
  set (wd := width w - String.length (indent_of w (length lines))).
  set (chunks1 := match chunks, lines with
                  | c :: rest, _ :: _ => if decide (Py.strip c = "") then rest else chunks
                  | _, _ => chunks
                  end).
  assert (ink (Py.join chunks1) = ink (Py.join chunks)) as <-.
  { unfold chunks1. destruct chunks as [|c rest]; [done|].
    destruct lines; [done|]. case_decide as Hc; [|done].
    simpl. by rewrite ink_app, (ink_blank c Hc). }
  destruct (fill_line wd [] 0 chunks1) as [[cur_line cur_len] chunks2] eqn:Hfill.
  apply fill_line_spec in Hfill as (taken & -> & -> & -> & _ & _). simpl.
  set (step3 := match chunks2 with
                | c :: rest =>
                    if decide (wd < String.length c)
                    then handle_long_word c rest taken (chunks_len taken) wd
                    else (taken, chunks2)
                | [] => (taken, chunks2)
                end).
  assert (∃ cur_line3 chunks3, step3 = (cur_line3, chunks3)
            ∧ ink (Py.join cur_line3) ++ ink (Py.join chunks3)
              = ink (Py.join (taken ++ chunks2))) as (cur_line3 & chunks3 & -> & <-).
  { unfold step3. destruct chunks2 as [|c rest].
    { eexists _, _. split; [done|]. by rewrite ink_join_app. }
    case_decide.
    - destruct (handle_long_word c rest taken (chunks_len taken) wd)
        as [cur_line3 chunks3] eqn:Hh.
      apply handle_long_word_spec in Hh as (e & -> & -> & _).
      eexists _, _. split; [done|].
      rewrite !ink_join_app. simpl.
      rewrite str_app_nil_r, !ink_app.
      assert (ink c = ink (str_take e c) ++ ink (str_drop e c)) as ->
        by (by rewrite <-ink_app, str_take_drop).
      by rewrite <-!app_assoc.
    - eexists _, _. split; [done|]. by rewrite ink_join_app. }
  set (cur_line4 := match last cur_line3 with
                    | Some c => if decide (Py.strip c = "") then removelast cur_line3
                                else cur_line3
                    | None => cur_line3
                    end).
  assert (ink (Py.join cur_line4) = ink (Py.join cur_line3)) as <-.
  { unfold cur_line4. destruct (last cur_line3) as [c|] eqn:Hlast; [|done].
    case_decide; [by eapply ink_removelast|done]. }
  intros [= <- <-]. exists cur_line4. split; [|done].
  clearbody cur_line4. destruct cur_line4; [by rewrite app_nil_r|done].
Qed.

Lemma wrap_loop_ink (w : TextWrapper) (fuel : nat) (lines chunks lines' bodies : list string) :
  lines = imap (λ i body, indent_of w i +:+ body) bodies →
  wrap_loop fuel w lines chunks = Some lines' →
  ∃ bodies', lines' = imap (λ i body, indent_of w i +:+ body) bodies'
    ∧ ink (Py.join bodies') = ink (Py.join bodies) ++ ink (Py.join chunks).
Proof.
  revert lines chunks bodies.
  induction fuel as [|fuel IH]; intros lines chunks bodies Hlines;
    (destruct chunks as [|c chunks];
      [intros [= <-]; exists bodies; by rewrite app_nil_r|]); [done|].
  cbn [wrap_loop].
  destruct (wrap_line w lines (c :: chunks)) as [lines1 chunks1] eqn:Hline.
  apply wrap_line_ink in Hline as (cur_line & -> & Hink).
  intros Hloop.
  apply (IH _ _ (bodies ++ if cur_line is [] then [] else [Py.join cur_line])) in Hloop
    as (bodies' & -> & Hink').
  - exists bodies'. split; [done|]. rewrite Hink', <-Hink, ink_join_app, <-app_assoc.
    do 2 f_equal. destruct cur_line; [done|]. simpl. by rewrite str_app_nil_r.
  - rewrite imap_app, <-Hlines. f_equal.
    rewrite Hlines, length_imap. destruct cur_line; [done|].
    simpl. by rewrite Nat.add_0_r.
Qed.

(** The lines of [wrap_chunks] are the indents, each followed by a text,
    and the texts have the ink of the chunks. *)
Lemma wrap_chunks_ink (w : TextWrapper) (chunks : list string) :
  ∃ bodies, wrap_chunks w chunks = imap (λ i body, indent_of w i +:+ body) bodies
    ∧ ink (Py.join bodies) = ink (Py.join chunks).
Proof.
  destruct (wrap_loop_ink w (passes chunks) [] chunks (wrap_chunks w chunks) [])
    as (bodies & Hb & Hink); [done|apply wrap_chunks_total|].
  by exists bodies.
Qed.

(** X12: the description lines of a name that has descriptions are
    ["# "] followed by texts which, put together, have the characters
    other than whitespace of the chunks of the wrapped text, in the
    same order: wrapping drops and adds nothing but whitespace. *)
Theorem desc_lines_keep_ink {ws : WordSplit} (descriptions : list string) :
  descriptions ≠ [] →
  ∃ bodies, desc_lines descriptions = (λ body, "# " +:+ body) <$> bodies
    ∧ ink (Py.join bodies) = ink (Py.join (split_chunks (wrapped_text descriptions))).
Proof.
  intros Hne. unfold desc_lines.
  rewrite decide_True by (destruct descriptions; [done|simpl; lia]).
  destruct (wrap_chunks_ink wrapper (split_chunks (wrapped_text descriptions)))
    as (bodies & Hb & Hink).
  exists bodies. split; [|done]. unfold wrap. rewrite Hb.
  rewrite <-imap_const. apply imap_ext. by intros [|i] body _.
Qed.
End keeping.

Lemma desc_lines_keep_ink_witness :
  ∃ bodies,
    desc_lines (ws:=TextWrap.split_plain) ["Price at close"; "Alt def"]
    = (λ body, "# " +:+ body) <$> bodies
    ∧ ink (Py.join bodies)
      = ink (Py.join (TextWrap.split_plain (wrapped_text ["Price at close"; "Alt def"]))).
Proof.
  apply (desc_lines_keep_ink (ws:=TextWrap.split_plain) ["Price at close"; "Alt def"]).
  discriminate.
Defined.
